(** * darkroom: the image manipulation service and its native processor

    A shallow embedding of the request dispatcher ([service.Process],
    [CleanInt], [GetCropPoint]) and of the bild-backed processor
    ([BildProcessor]) together with the parts of the Go standard library
    the two rely on ([strconv.Atoi], [image], [image/color], ...).

    Go's [int] is the 64-bit one; it is carried by [Z].  Where the code
    or its libraries guard a value against leaving the range of its type
    ([strconv], [image.NewRGBA], the colour conversions) the guard or the
    wrap-around is written out; the coordinates and sizes of images stay
    far inside the range. *)

From Stdlib Require Import ZArith Lia Bool List Ascii String Floats.SpecFloat.
From stdpp Require Import base decidable option list gmap strings fin_maps.

Open Scope string_scope.
Open Scope list_scope.
Open Scope Z_scope.

(** ** Go values *)

(** A Go string is a sequence of bytes. *)
Definition byteZ (c : ascii) : Z := Z.of_N (N_of_ascii c).

(** [[]byte]; the nil slice is the empty list. *)
Definition bytes := list Byte.byte.

(** [uint8]: the value of a byte, and the conversion that keeps the low
    eight bits. *)
Definition u8 (b : Byte.byte) : Z := Z.of_N (Byte.to_N b).

Definition uint8 (z : Z) : Byte.byte :=
  match Byte.of_N (Z.to_N (z mod 256)) with
  | Some b => b
  | None => Byte.x00
  end.

(** [for i := lo; i < hi; i++ { body }] over a state [S]. *)
Definition for_range {S : Type} (lo hi : Z) (body : Z -> S -> S) (s : S) : S :=
  foldl (fun s i => body i s) s (seqZ lo (hi - lo)).

(** ** Package strconv (64-bit platform) *)

Module strconv.

Definition intSize : Z := 64.
Definition maxUint64 : Z := 2 ^ 64 - 1.
Definition MaxInt : Z := 2 ^ 63 - 1.
Definition MinInt : Z := - 2 ^ 63.

Inductive NumError := ErrSyntax | ErrRange.

(** [lower(c)] is [c | ('x' - 'X')]. *)
Definition lower (c : Z) : Z := Z.lor c 32.

(** The loop of [ParseUint(s, 10, 64)]: [n] is the value read so far.
    The multiplication and the addition are those of [uint64]. *)
Fixpoint ParseUint_loop (s : string) (n : Z) : Z * option NumError :=
  match s with
  | EmptyString => (n, None)
  | String ch rest =>
      let c := byteZ ch in
      let digit :=
        if (48 <=? c) && (c <=? 57) then Some (c - 48)
        else if (97 <=? lower c) && (lower c <=? 122) then Some (lower c - 97 + 10)
        else None in
      match digit with
      | None => (0, Some ErrSyntax)
      | Some d =>
          if 10 <=? d then (0, Some ErrSyntax)
          else if maxUint64 / 10 + 1 <=? n then (maxUint64, Some ErrRange)
          else
            let n' := (n * 10) mod 2 ^ 64 in
            let n1 := (n' + d) mod 2 ^ 64 in
            if (n1 <? n') || (maxUint64 <? n1) then (maxUint64, Some ErrRange)
            else ParseUint_loop rest n1
      end
  end.

Definition ParseUint (s : string) : Z * option NumError :=
  match s with
  | EmptyString => (0, Some ErrSyntax)
  | _ => ParseUint_loop s 0
  end.

(** [int64(u)] for a [uint64]. *)
Definition int64_of_uint64 (u : Z) : Z :=
  if u <? 2 ^ 63 then u else u - 2 ^ 64.

(** [-n] on [int64]. *)
Definition neg64 (n : Z) : Z := int64_of_uint64 ((- n) mod 2 ^ 64).

(** [ParseInt(s, 10, 0)]. *)
Definition ParseInt (s : string) : Z * option NumError :=
  match s with
  | EmptyString => (0, Some ErrSyntax)
  | String c0 rest =>
      let neg := Z.eqb (byteZ c0) 45 in
      let s' := if Z.eqb (byteZ c0) 43 then rest
                else if neg then rest else s in
      let '(un, err) := ParseUint s' in
      match err with
      | Some ErrSyntax => (0, Some ErrSyntax)
      | _ =>
          let cutoff := 2 ^ 63 in
          if negb neg && (cutoff <=? un) then (cutoff - 1, Some ErrRange)
          else if neg && (cutoff <? un) then (- cutoff, Some ErrRange)
          else
            let n := int64_of_uint64 un in
            (if neg then neg64 n else n, None)
      end
  end.

(** The fast path of [Atoi]: [ch -= '0'] is a byte subtraction. *)
Fixpoint Atoi_fast_loop (s : string) (n : Z) : option Z :=
  match s with
  | EmptyString => Some n
  | String ch rest =>
      let c := (byteZ ch - 48) mod 256 in
      if 9 <? c then None else Atoi_fast_loop rest (n * 10 + c)
  end.

Definition Atoi (s : string) : Z * option NumError :=
  let sLen := Z.of_nat (String.length s) in
  if (0 <? sLen) && (sLen <? 19) then
    match s with
    | EmptyString => (0, Some ErrSyntax)
    | String c0 rest =>
        let signed := Z.eqb (byteZ c0) 45 || Z.eqb (byteZ c0) 43 in
        let s' := if signed then rest else s in
        if signed && (Z.of_nat (String.length s') <? 1) then (0, Some ErrSyntax)
        else
          match Atoi_fast_loop s' 0 with
          | None => (0, Some ErrSyntax)
          | Some n => (if Z.eqb (byteZ c0) 45 then - n else n, None)
          end
    end
  else ParseInt s.

(** [FormatInt(v, 10)]: the digits are produced from the least
    significant one. *)
Fixpoint formatBits (fuel : nat) (u : Z) (acc : string) : string :=
  match fuel with
  | O => acc
  | S fuel' =>
      let acc' := String (ascii_of_N (Z.to_N (48 + u mod 10))) acc in
      if u <? 10 then acc' else formatBits fuel' (u / 10) acc'
  end.

Definition Itoa (v : Z) : string :=
  if v <? 0 then String "-" (formatBits 20 (- v) "") else formatBits 20 v "".

End strconv.

(** ** The run-time: the clock, the metrics sink and panics *)

(** Go's [error]: [nil] is [None]; an error is known by its message. *)
Definition error := option string.

Module metrics.

(** Modelled from the spec: package [metrics] is outside the files at
    hand.  Its sink takes one recording call with a name, a kind, a
    duration and a scope; the callers only use the kind [Duration]. *)
Inductive MetricType := Duration.

Record UpdateOption := {
  Name : string;
  Type_ : MetricType;
  Duration_ : Z;
  Scope : string
}.

End metrics.

(** What a Go call ends in: a normal return or a run-time panic. *)
Inductive Outcome (A : Type) :=
| Done (a : A)
| Panic (msg : string).
Arguments Done {A} a.
Arguments Panic {A} msg.

(** A computation over a state [S] that may panic; the state reached at
    the panic is kept (what was recorded stays recorded). *)
Definition ST (S A : Type) : Type := S -> Outcome A * S.

Definition ret {S A} (a : A) : ST S A := fun s => (Done a, s).

Definition bind {S A B} (m : ST S A) (k : A -> ST S B) : ST S B :=
  fun s =>
    match m s with
    | (Done a, s') => k a s'
    | (Panic msg, s') => (Panic msg, s')
    end.

Declare Scope go_scope.
Delimit Scope go_scope with go.
Notation "x <- m ;; k" := (bind m (fun x => k))
  (at level 20, m at level 99, k at level 200, only parsing) : go_scope.
Notation "' pat <- m ;; k" := (bind m (fun x => match x with pat => k end))
  (at level 20, pat pattern, m at level 99, k at level 200, only parsing) : go_scope.
Open Scope go_scope.

(** Code that touches no state but may panic runs in [Outcome]. *)
Global Instance Outcome_ret : MRet Outcome := fun _ a => Done a.
Global Instance Outcome_bind : MBind Outcome := fun _ _ k m =>
  match m with
  | Done a => k a
  | Panic msg => Panic msg
  end.

Definition liftO {S A} (m : Outcome A) : ST S A := fun s => (m, s).

(** ** float64 (IEEE 754 binary64, round to nearest even) *)

Module float64.

Definition prec : Z := 53.
Definition emax : Z := 1024.

(** [float64(n)] for an [int]. *)
Definition of_int (n : Z) : spec_float := binary_normalize prec emax n 0 false.

Definition div (x y : spec_float) : spec_float := SFdiv prec emax x y.
Definition mul (x y : spec_float) : spec_float := SFmul prec emax x y.

(** The constant [2.0]. *)
Definition two : spec_float := S754_finite false 4503599627370496 (-51).

(** [int(f)]: the fraction is dropped.  For a NaN, an infinity or a
    value outside [int] the result is left to the platform; amd64 gives
    the least [int]. *)
Definition to_int (f : spec_float) : Z :=
  match f with
  | S754_zero _ => 0
  | S754_finite s m e =>
      let a := if 0 <=? e then Zpos m * 2 ^ e else Zpos m / 2 ^ (- e) in
      let v := if s then - a else a in
      if (strconv.MinInt <=? v) && (v <=? strconv.MaxInt) then v else strconv.MinInt
  | _ => strconv.MinInt
  end.

End float64.

(** ** Package image/color *)

Module color.

(** [color.RGBA]: alpha-premultiplied, eight bits a channel. *)
Record RGBA := mkRGBA { R : Byte.byte; G : Byte.byte; B : Byte.byte; A : Byte.byte }.

Record Gray := mkGray { Y : Byte.byte }.

(** The interface [color.Color].  Of the types that implement it the
    two the conversions below single out are kept apart; any other one
    is known by what its [RGBA] method returns. *)
Inductive Color :=
| ofRGBA (c : RGBA)
| ofGray (c : Gray)
| other (r g b a : Z).

(** The method [RGBA()]: four [uint32]. *)
Definition RGBA_ (c : Color) : Z * Z * Z * Z :=
  match c with
  | ofRGBA c =>
      let w v := Z.lor (u8 v) (Z.shiftl (u8 v) 8) in
      (w (R c), w (G c), w (B c), w (A c))
  | ofGray c =>
      let y := Z.lor (u8 (Y c)) (Z.shiftl (u8 (Y c)) 8) in
      (y, y, y, 65535)
  | other r g b a => (r mod 2 ^ 32, g mod 2 ^ 32, b mod 2 ^ 32, a mod 2 ^ 32)
  end.

(** [RGBAModel.Convert]. *)
Definition RGBAModel_Convert (c : Color) : RGBA :=
  match c with
  | ofRGBA c => c
  | _ =>
      let '(r, g, b, a) := RGBA_ c in
      mkRGBA (uint8 (Z.shiftr r 8)) (uint8 (Z.shiftr g 8))
             (uint8 (Z.shiftr b 8)) (uint8 (Z.shiftr a 8))
  end.

(** [GrayModel.Convert]; the sum is a [uint32]. *)
Definition GrayModel_Convert (c : Color) : Gray :=
  match c with
  | ofGray c => c
  | _ =>
      let '(r, g, b, _) := RGBA_ c in
      let y := Z.shiftr ((19595 * r + 38470 * g + 7471 * b + Z.shiftl 1 15) mod 2 ^ 32) 24 in
      mkGray (uint8 y)
  end.

End color.

(** ** Package image *)

Module image.

Definition Point : Type := Z * Z.
Definition X (p : Point) : Z := fst p.
Definition Y (p : Point) : Z := snd p.
Definition Pt (x y : Z) : Point := (x, y).
Definition ZP : Point := (0, 0).

Record Rectangle := mkRectangle { Min : Point; Max : Point }.

Definition ZR : Rectangle := mkRectangle ZP ZP.

(** [image.Rect]: the corners are put in order. *)
Definition Rect (x0 y0 x1 y1 : Z) : Rectangle :=
  let '(x0, x1) := if x1 <? x0 then (x1, x0) else (x0, x1) in
  let '(y0, y1) := if y1 <? y0 then (y1, y0) else (y0, y1) in
  mkRectangle (x0, y0) (x1, y1).

Definition Dx (r : Rectangle) : Z := X (Max r) - X (Min r).
Definition Dy (r : Rectangle) : Z := Y (Max r) - Y (Min r).

Definition Empty (r : Rectangle) : bool :=
  (X (Max r) <=? X (Min r)) || (Y (Max r) <=? Y (Min r)).

Definition In (p : Point) (r : Rectangle) : bool :=
  (X (Min r) <=? X p) && (X p <? X (Max r)) && (Y (Min r) <=? Y p) && (Y p <? Y (Max r)).

Definition Add (r : Rectangle) (p : Point) : Rectangle :=
  mkRectangle (X (Min r) + X p, Y (Min r) + Y p) (X (Max r) + X p, Y (Max r) + Y p).

Definition Intersect (r s : Rectangle) : Rectangle :=
  let minx := if X (Min r) <? X (Min s) then X (Min s) else X (Min r) in
  let miny := if Y (Min r) <? Y (Min s) then Y (Min s) else Y (Min r) in
  let maxx := if X (Max s) <? X (Max r) then X (Max s) else X (Max r) in
  let maxy := if Y (Max s) <? Y (Max r) then Y (Max s) else Y (Max r) in
  let r' := mkRectangle (minx, miny) (maxx, maxy) in
  if Empty r' then ZR else r'.

(** A rectangle is well formed when its corners are in order; the
    rectangles the package hands out are. *)
Definition wellFormed (r : Rectangle) : Prop :=
  X (Min r) <= X (Max r) /\ Y (Min r) <= Y (Max r).

(** [mul3NonNeg]: the product, or -1 when an argument is negative or
    the product does not fit an [int]. *)
Definition mul3NonNeg (x y z : Z) : Z :=
  if (x <? 0) || (y <? 0) || (z <? 0) then -1
  else if 2 ^ 64 <=? x * y then -1
  else if 2 ^ 64 <=? x * y * z then -1
  else if 2 ^ 63 <=? x * y * z then -1
  else x * y * z.

(** [image.RGBA].  The pixel buffer is kept as a map from the points to
    their colours, the buffer of a new image being all zero; the layout
    in memory ([Stride], the offsets in [Pix]) is left out. *)
Record RGBA := mkImg { Pix : gmap Point color.RGBA; Rect_ : Rectangle }.

Definition zeroRGBA : color.RGBA := color.mkRGBA Byte.x00 Byte.x00 Byte.x00 Byte.x00.

(** [&image.RGBA{}]. *)
Definition emptyRGBA : RGBA := mkImg ∅ ZR.

Definition NewRGBA (r : Rectangle) : Outcome RGBA :=
  if mul3NonNeg 4 (Dx r) (Dy r) <? 0
  then Panic "image: NewRGBA Rectangle has huge or negative dimensions"
  else Done (mkImg ∅ r).

Definition RGBAAt (p : RGBA) (x y : Z) : color.RGBA :=
  if In (x, y) (Rect_ p) then default zeroRGBA (Pix p !! (x, y)) else zeroRGBA.

Definition Set_ (p : RGBA) (x y : Z) (c : color.Color) : RGBA :=
  if In (x, y) (Rect_ p)
  then mkImg (<[(x, y) := color.RGBAModel_Convert c]> (Pix p)) (Rect_ p)
  else p.

(** [SubImage]: the view shares the pixels. *)
Definition SubImage (p : RGBA) (r : Rectangle) : RGBA :=
  let r := Intersect r (Rect_ p) in
  if Empty r then emptyRGBA else mkImg (Pix p) r.

(** The concrete types behind the interface [image.Image] that the
    registered decoders (PNG and JPEG) return, [*image.RGBA] apart. *)
Inductive Kind :=
| KGray | KGray16 | KNRGBA | KRGBA64 | KNRGBA64 | KPaletted | KCMYK | KYCbCr.

(** An [image.Image]: an [*image.RGBA], or a value of another type, known
    by its type, its [Bounds()] and its [At]. *)
Inductive Image :=
| ofRGBA (p : RGBA)
| ofKind (k : Kind) (bounds : Rectangle) (at_ : Z -> Z -> color.Color).

Definition Bounds (img : Image) : Rectangle :=
  match img with
  | ofRGBA p => Rect_ p
  | ofKind _ bounds _ => bounds
  end.

Definition At (img : Image) (x y : Z) : color.Color :=
  match img with
  | ofRGBA p => color.ofRGBA (RGBAAt p x y)
  | ofKind _ _ at_ => at_ x y
  end.

(** Whether the dynamic type has the method [Set], that is, implements
    [draw.Image]: of the types above all but [*image.YCbCr] do. *)
Definition isDrawImage (img : Image) : bool :=
  match img with
  | ofRGBA _ => true
  | ofKind KYCbCr _ _ => false
  | ofKind _ _ _ => true
  end.

Definition typeName (img : Image) : string :=
  match img with
  | ofRGBA _ => "*image.RGBA"
  | ofKind KGray _ _ => "*image.Gray"
  | ofKind KGray16 _ _ => "*image.Gray16"
  | ofKind KNRGBA _ _ => "*image.NRGBA"
  | ofKind KRGBA64 _ _ => "*image.RGBA64"
  | ofKind KNRGBA64 _ _ => "*image.NRGBA64"
  | ofKind KPaletted _ _ => "*image.Paletted"
  | ofKind KCMYK _ _ => "*image.CMYK"
  | ofKind KYCbCr _ _ => "*image.YCbCr"
  end.

End image.

(** ** Package bild: clone, parallel *)

Module clone.
Import image.

(** [clone.AsRGBA]: a new RGBA image of the same bounds, the source
    drawn over it with [draw.Src], that is, pixel by pixel through
    [RGBAModel.Convert]. *)
Definition AsRGBA (src : Image) : Outcome RGBA :=
  let bounds := Bounds src in
  img ← NewRGBA bounds;
  mret (for_range (Y (Min bounds)) (Y (Max bounds)) (fun y img =>
          for_range (X (Min bounds)) (X (Max bounds)) (fun x img =>
            Set_ img x y (At src x y)) img) img).

End clone.

Module parallel.

(** The loop of [parallel.Line] that hands out the parts, from the last
    rows to the first. *)
Fixpoint Line_loop {S : Type} (fuel : nat) (counter partSize : Z)
         (fn : Z -> Z -> S -> S) (s : S) : S :=
  match fuel with
  | O => s
  | Datatypes.S fuel' =>
      if 0 <? counter then
        let start := counter - partSize in
        let end_ := counter in
        let start := if start <? 0 then 0 else start in
        Line_loop fuel' (counter - partSize) partSize fn (fn start end_ s)
      else s
  end.

(** [parallel.Line(length, fn)] with [procs] the value of
    [runtime.GOMAXPROCS(0)], at least 1.  The parts run as goroutines;
    every part only writes the rows it was given and reads the rest, so
    the parts are run here one after the other, in the order they are
    started. *)
Definition Line {S : Type} (procs length : Z) (fn : Z -> Z -> S -> S) (s : S) : S :=
  let partSize := Z.quot length procs in
  if (procs <=? 1) || (partSize <=? procs) then fn 0 length s
  else Line_loop (Z.to_nat length) length partSize fn s.

End parallel.

(** ** The steps on image data, and the state of the process *)

Module png.
Inductive CompressionLevel :=
| DefaultCompression | NoCompression | BestSpeed | BestCompression.
End png.

(** The steps that work on image data, with what they are given: the
    calls into the codecs, into bild and into [image/draw], and the two
    loops over the pixels of package [native]. *)
Inductive Work :=
| WorkDecode (data : bytes)
| WorkIsOpaque (img : image.Image)
| WorkPngEncode (img : image.Image)
| WorkJpegEncode (img : image.Image)
| WorkResize (img : image.Image) (width height : Z)
| WorkAsRGBA (img : image.Image)
| WorkGrayScale (img : image.Image)
| WorkDrawMask (dst : image.Image) (r : image.Rectangle) (src : image.Image)
               (sp : image.Point) (mask : Byte.byte) (mp : image.Point).

(** The process-wide state the code touches: the wall clock, in
    nanoseconds, and the metrics recorded so far, oldest first.  The clock
    only moves inside the steps above, by the time the step takes; the
    glue code between them takes no time.  [steps] is ghost state: the
    steps taken so far, oldest first. *)
Record Sys := {
  now : Z;
  recorded : list metrics.UpdateOption;
  steps : list Work
}.

Definition Go (A : Type) : Type := ST Sys A.

Module time.

Definition Now : Go Z := fun s => (Done (now s), s).

Definition Since (t : Z) : Go Z := fun s => (Done (now s - t), s).

End time.

Definition metrics_Update (o : metrics.UpdateOption) : Go unit :=
  fun s => (Done tt, {| now := now s; recorded := recorded s ++ [o]; steps := steps s |}).

(** ** Package processor: the crop anchors and the interface *)

Module processor.

(** Modelled from the spec: the type [processor.CropPoint] is declared
    outside the files at hand; the data model lists its nine anchors and
    the dispatcher names the constants. *)
Inductive CropPoint :=
| CropCenter | CropTop | CropBottom | CropLeft | CropRight
| CropTopLeft | CropTopRight | CropBottomLeft | CropBottomRight.

(** The interface [processor.Processor], by the four methods
    [BildProcessor] implements. *)
Record Processor := {
  Crop : bytes -> Z -> Z -> CropPoint -> Go (bytes * error);
  Resize : bytes -> Z -> Z -> Go (bytes * error);
  Watermark : bytes -> bytes -> Byte.byte -> Go (bytes * error);
  GrayScale : bytes -> Go (bytes * error)
}.

(** A call through the interface, with its arguments. *)
Inductive Call :=
| CallCrop (input : bytes) (width height : Z) (point : CropPoint)
| CallResize (input : bytes) (width height : Z)
| CallWatermark (base overlay : bytes) (opacity : Byte.byte)
| CallGrayScale (input : bytes).

Definition isCrop (c : Call) : bool :=
  match c with CallCrop _ _ _ _ => true | _ => false end.
Definition isResize (c : Call) : bool :=
  match c with CallResize _ _ _ => true | _ => false end.
Definition isGrayScale (c : Call) : bool :=
  match c with CallGrayScale _ => true | _ => false end.

End processor.

(** ** The libraries behind the native processor *)

(** What the code takes from outside: the codecs of the standard library,
    the pixel work of bild and of [image/draw], the number of processors,
    and the helpers of package [native] that are declared outside the
    files at hand (the sizes for a resize and the origin of a crop). *)
Record Env := {
  GOMAXPROCS : Z;
  cost : Work -> Z;
  image_Decode : bytes -> (image.Image * string) + string;
  png_Encode : png.CompressionLevel -> image.Image -> bytes * error;
  jpeg_encode : Z -> image.Image -> bytes * error;
  resample : image.Image -> Z -> Z -> gmap image.Point color.RGBA;
  draw_DrawMask : image.Image -> image.Rectangle -> image.Image -> image.Point ->
                  Byte.byte -> image.Point -> image.Image;
  effect_Grayscale : image.Image -> image.Image;
  getResizeWidthAndHeightForCrop : Z -> Z -> Z -> Z -> Z * Z;
  getStartingPointForCrop : Z -> Z -> Z -> Z -> processor.CropPoint -> Z * Z;
  getResizeWidthAndHeight : Z -> Z -> Z -> Z -> Z * Z
}.

(** A step is taken: it is noted and the clock moves by its cost. *)
Definition work (env : Env) (w : Work) : Go unit :=
  fun s => (Done tt, {| now := now s + cost env w; recorded := recorded s;
                        steps := steps s ++ [w] |}).

Module jpeg.

Definition DefaultQuality : Z := 75.

Record Options := { Quality : Z }.

(** [jpeg.Encode(w, m, o)]: a nil [o] stands for the default quality. *)
Definition Encode (env : Env) (m : image.Image) (o : option Options) : bytes * error :=
  let quality :=
    match o with
    | None => DefaultQuality
    | Some o =>
        if Quality o <? 1 then 1 else if 100 <? Quality o then 100 else Quality o
    end in
  jpeg_encode env quality m.

End jpeg.

Module transform.
Import image.

(** [transform.Resize(img, width, height, filter)]: an RGBA image of
    bounds [(0,0)-(width,height)], or the empty image when a side is not
    positive or the source is empty; the resampling is the library's. *)
Definition Resize (env : Env) (img : Image) (width height : Z) : Outcome RGBA :=
  if (width <=? 0) || (height <=? 0) || Empty (Bounds img)
  then NewRGBA (Rect 0 0 0 0)
  else
    dst ← NewRGBA (Rect 0 0 width height);
    mret (mkImg (resample env img width height) (Rect_ dst)).

End transform.

(** ** Package service *)

Module service.
Import processor.

Definition width := "w".
Definition height := "h".
Definition fit := "fit".
Definition crop := "crop".
Definition mono := "mono".
Definition blackHexCode := "000000".

Definition cropDurationKey := "cropDuration".
Definition resizeDurationKey := "resizeDuration".
Definition grayScaleDurationKey := "grayScaleDuration".

Record manipulator := { processor_ : Processor }.

Record ProcessSpec := {
  Scope : string;
  ImageData : bytes;
  Params : gmap string string
}.

(** [params[k]]: a key that is absent reads as the empty string. *)
Definition index (params : gmap string string) (k : string) : string :=
  default "" (params !! k).

Definition CleanInt (input : string) : Z :=
  let '(val, _) := strconv.Atoi input in
  if val <=? 0 then 0 else Z.rem val 10000.

Definition GetCropPoint (input : string) : CropPoint :=
  if String.eqb input "top" then CropTop
  else if String.eqb input "top,left" then CropTopLeft
  else if String.eqb input "top,right" then CropTopRight
  else if String.eqb input "left" then CropLeft
  else if String.eqb input "right" then CropRight
  else if String.eqb input "bottom" then CropBottom
  else if String.eqb input "bottom,left" then CropBottomLeft
  else if String.eqb input "bottom,right" then CropBottomRight
  else CropCenter.

(** The dispatcher runs over the process-wide state and a log of the
    calls it made through the interface, oldest first.  The log is
    ghost state: a processor cannot reach it. *)
Definition Traced (A : Type) : Type := ST (Sys * list Call) A.

Definition lift {A} (m : Go A) : Traced A :=
  fun '(s, log) => let '(r, s') := m s in (r, (s', log)).

Definition invoke {A} (c : Call) (m : Go A) : Traced A :=
  fun '(s, log) => let '(r, s') := m s in (r, (s', log ++ [c])).

Definition durationMetric (name : string) (t : Z) (scope : string) : Traced unit :=
  d <- lift (time.Since t) ;;
  lift (metrics_Update {| metrics.Name := name; metrics.Type_ := metrics.Duration;
                          metrics.Duration_ := d; metrics.Scope := scope |}).

Definition Process (m : manipulator) (spec : ProcessSpec) : Traced (bytes * error) :=
  let params := Params spec in
  let data := ImageData spec in
  let err : error := None in
  '(data, err) <-
    (if String.eqb (index params fit) crop then
       t <- lift time.Now ;;
       '(data, err) <-
         invoke (CallCrop data (CleanInt (index params width))
                          (CleanInt (index params height))
                          (GetCropPoint (index params crop)))
                (Crop (processor_ m) data (CleanInt (index params width))
                      (CleanInt (index params height))
                      (GetCropPoint (index params crop))) ;;
       _ <- (if err is None then durationMetric cropDurationKey t (Scope spec)
             else ret tt) ;;
       ret (data, err)
     else if (Z.of_nat (String.length (index params fit)) =? 0)
             && (negb (CleanInt (index params width) =? 0)
                 || negb (CleanInt (index params height) =? 0)) then
       t <- lift time.Now ;;
       '(data, err) <-
         invoke (CallResize data (CleanInt (index params width))
                            (CleanInt (index params height)))
                (Resize (processor_ m) data (CleanInt (index params width))
                        (CleanInt (index params height))) ;;
       _ <- (if err is None then durationMetric resizeDurationKey t (Scope spec)
             else ret tt) ;;
       ret (data, err)
     else ret (data, err)) ;;
  '(data, err) <-
    (if String.eqb (index params mono) blackHexCode then
       t <- lift time.Now ;;
       '(data, err) <- invoke (CallGrayScale data) (GrayScale (processor_ m) data) ;;
       _ <- (if err is None then durationMetric grayScaleDurationKey t (Scope spec)
             else ret tt) ;;
       ret (data, err)
     else ret (data, err)) ;;
  ret (data, err).

End service.

(** ** Package native: the bild processor *)

Module native.
Import image.

Definition pngType := "png".
Definition jpgType := "jpeg".

Definition watermarkDurationKey := "watermarkDuration".
Definition decodeDurationKey := "decodeDuration".
Definition encodeDurationKey := "encodeDuration".

(** [metrics.Update] of a duration since [t]; the processor sets no
    scope. *)
Definition durationMetric (name : string) (t : Z) : Go unit :=
  d <- time.Since t ;;
  metrics_Update {| metrics.Name := name; metrics.Type_ := metrics.Duration;
                    metrics.Duration_ := d; metrics.Scope := "" |}.

(** The 16-bit alpha of a colour. *)
Definition alpha (c : color.Color) : Z :=
  let '(_, _, _, a) := color.RGBA_ c in a.

(** Modelled from the spec: the helper [isOpaque] is declared outside
    the files at hand.  An image is opaque when every pixel's alpha
    channel equals fully opaque. *)
Definition isOpaque (img : Image) : bool :=
  let b := Bounds img in
  forallb (fun y =>
    forallb (fun x => alpha (At img x y) =? 65535) (seqZ (X (Min b)) (Dx b)))
    (seqZ (Y (Min b)) (Dy b)).

(** The same in words: every pixel of the image is fully opaque. *)
Definition allOpaque (img : Image) : Prop :=
  forall x y, In (x, y) (Bounds img) = true -> alpha (At img x y) = 65535.

Definition grayScale (procs : Z) (img : Image) : Outcome Image :=
  src ← clone.AsRGBA img;
  let bounds := Rect_ src in
  if Empty bounds then mret (ofRGBA emptyRGBA)
  else
    dst ← NewRGBA bounds;
    mret (ofRGBA (parallel.Line procs (Dy bounds) (fun start end_ dst =>
      for_range start end_ (fun y dst =>
        for_range 0 (Dx bounds) (fun x dst =>
          let srcPix := RGBAAt src x y in
          let g := color.Y (color.GrayModel_Convert (color.ofRGBA srcPix)) in
          Set_ dst x y (color.ofRGBA (color.mkRGBA g g g (color.A srcPix)))) dst) dst)
      dst)).

Definition decode (env : Env) (data : bytes) : Go ((Image * string) + string) :=
  t <- time.Now ;;
  _ <- work env (WorkDecode data) ;;
  let r := image_Decode env data in
  _ <- (match r with
        | inl _ => durationMetric decodeDurationKey t
        | inr _ => ret tt
        end) ;;
  ret r.

Definition encode (env : Env) (img : Image) (format : string) : Go (bytes * error) :=
  t <- time.Now ;;
  opaque <- (if String.eqb format pngType
             then _ <- work env (WorkIsOpaque img) ;; ret (isOpaque img)
             else ret false) ;;
  let format := if String.eqb format pngType && opaque then jpgType else format in
  '(buff, err) <-
    (if String.eqb format pngType then
       _ <- work env (WorkPngEncode img) ;;
       ret (png_Encode env png.BestCompression img)
     else
       _ <- work env (WorkJpegEncode img) ;;
       ret (jpeg.Encode env img None)) ;;
  _ <- durationMetric encodeDurationKey t ;;
  ret (buff, err).

Definition Crop (env : Env) (input : bytes) (width height : Z)
           (point : processor.CropPoint) : Go (bytes * error) :=
  r <- decode env input ;;
  match r with
  | inr err => ret ([], Some err)
  | inl (img, f) =>
      let '(w, h) := getResizeWidthAndHeightForCrop env width height
                       (Dx (Bounds img)) (Dy (Bounds img)) in
      _ <- work env (WorkResize img w h) ;;
      img <- liftO (transform.Resize env img w h) ;;
      let '(x0, y0) := getStartingPointForCrop env w h width height point in
      let rect := Rect x0 y0 (width + x0) (height + y0) in
      _ <- work env (WorkAsRGBA (ofRGBA img)) ;;
      img <- liftO (clone.AsRGBA (ofRGBA img)) ;;
      encode env (ofRGBA (SubImage img rect)) f
  end.

Definition Resize (env : Env) (input : bytes) (width height : Z) : Go (bytes * error) :=
  r <- decode env input ;;
  match r with
  | inr err => ret ([], Some err)
  | inl (img, f) =>
      let initW := Dx (Bounds img) in
      let initH := Dy (Bounds img) in
      let '(w, h) := getResizeWidthAndHeight env width height initW initH in
      img <- (if negb (w =? initW) || negb (h =? initH) then
                _ <- work env (WorkResize img w h) ;;
                img <- liftO (transform.Resize env img w h) ;;
                ret (ofRGBA img)
              else ret img) ;;
      encode env img f
  end.

Definition Watermark (env : Env) (base overlay : bytes) (opacity : Byte.byte)
  : Go (bytes * error) :=
  r <- decode env base ;;
  match r with
  | inr err => ret ([], Some err)
  | inl (baseImg, f) =>
      r <- decode env overlay ;;
      match r with
      | inr err => ret ([], Some err)
      | inl (overlayImg, _) =>
          t <- time.Now ;;
          let ratio := float64.div (float64.of_int (Dy (Bounds overlayImg)))
                                   (float64.of_int (Dx (Bounds overlayImg))) in
          let dWidth := float64.div (float64.of_int (Dx (Bounds baseImg))) float64.two in
          _ <- work env (WorkResize overlayImg (float64.to_int dWidth)
                                    (float64.to_int (float64.mul dWidth ratio))) ;;
          overlayImg <- liftO (transform.Resize env overlayImg (float64.to_int dWidth)
                                 (float64.to_int (float64.mul dWidth ratio))) ;;
          let x := Z.quot (Dx (Bounds baseImg) - Dx (Rect_ overlayImg)) 2 in
          let y := Z.quot (Dy (Bounds baseImg) - Dy (Rect_ overlayImg)) 2 in
          let offset := Pt x y in
          let mask := opacity in
          dst <- (if isDrawImage baseImg then ret baseImg
                  else liftO (Panic ("interface conversion: image.Image is "
                                     ++ typeName baseImg
                                     ++ ", not draw.Image: missing method Set"))) ;;
          _ <- work env (WorkDrawMask dst (Add (Rect_ overlayImg) offset)
                                      (ofRGBA overlayImg) ZP mask ZP) ;;
          let baseImg := draw_DrawMask env dst (Add (Rect_ overlayImg) offset)
                           (ofRGBA overlayImg) ZP mask ZP in
          _ <- durationMetric watermarkDurationKey t ;;
          encode env baseImg f
      end
  end.

Definition GrayScale (env : Env) (input : bytes) : Go (bytes * error) :=
  r <- decode env input ;;
  match r with
  | inr err => ret ([], Some err)
  | inl (img, f) =>
      _ <- work env (WorkGrayScale img) ;;
      img <- liftO (grayScale (GOMAXPROCS env) img) ;;
      encode env img f
  end.

(** [NewBildProcessor()], seen through the interface. *)
Definition NewBildProcessor (env : Env) : processor.Processor :=
  {| processor.Crop := Crop env;
     processor.Resize := Resize env;
     processor.Watermark := Watermark env;
     processor.GrayScale := GrayScale env |}.

End native.

(** ** Package native as it stands in [pkg/processor/native/processor.go]

    [decode], [encode] and [Watermark] read the same there; [Crop],
    [Resize] and [GrayScale] time their transform themselves, and
    [GrayScale] takes the conversion from bild. *)

Module native_pkg.
Import image.

Definition cropDurationKey := "cropDuration".
Definition resizeDurationKey := "resizeDuration".
Definition grayScaleDurationKey := "grayScaleDuration".

Definition decode := native.decode.
Definition encode := native.encode.
Definition Watermark := native.Watermark.

Definition Crop (env : Env) (input : bytes) (width height : Z)
           (point : processor.CropPoint) : Go (bytes * error) :=
  r <- decode env input ;;
  match r with
  | inr err => ret ([], Some err)
  | inl (img, f) =>
      let '(w, h) := getResizeWidthAndHeightForCrop env width height
                       (Dx (Bounds img)) (Dy (Bounds img)) in
      t <- time.Now ;;
      _ <- work env (WorkResize img w h) ;;
      img <- liftO (transform.Resize env img w h) ;;
      let '(x0, y0) := getStartingPointForCrop env w h width height point in
      let rect := Rect x0 y0 (width + x0) (height + y0) in
      _ <- work env (WorkAsRGBA (ofRGBA img)) ;;
      img <- liftO (clone.AsRGBA (ofRGBA img)) ;;
      _ <- native.durationMetric cropDurationKey t ;;
      encode env (ofRGBA (SubImage img rect)) f
  end.

Definition Resize (env : Env) (input : bytes) (width height : Z) : Go (bytes * error) :=
  r <- decode env input ;;
  match r with
  | inr err => ret ([], Some err)
  | inl (img, f) =>
      let initW := Dx (Bounds img) in
      let initH := Dy (Bounds img) in
      let '(w, h) := getResizeWidthAndHeight env width height initW initH in
      img <- (if negb (w =? initW) || negb (h =? initH) then
                t <- time.Now ;;
                _ <- work env (WorkResize img w h) ;;
                img <- liftO (transform.Resize env img w h) ;;
                _ <- native.durationMetric resizeDurationKey t ;;
                ret (ofRGBA img)
              else ret img) ;;
      encode env img f
  end.

Definition GrayScale (env : Env) (input : bytes) : Go (bytes * error) :=
  r <- decode env input ;;
  match r with
  | inr err => ret ([], Some err)
  | inl (img, f) =>
      t <- time.Now ;;
      _ <- work env (WorkGrayScale img) ;;
      let img := effect_Grayscale env img in
      _ <- native.durationMetric grayScaleDurationKey t ;;
      encode env img f
  end.

End native_pkg.

(** ** The specification's wording, to compare the code with *)

Module spec.

(** The value of a run of decimal digits read after [acc]; [None] when a
    byte is not a digit. *)
Fixpoint digitsValue (s : string) (acc : Z) : option Z :=
  match s with
  | EmptyString => Some acc
  | String ch rest =>
      let c := byteZ ch in
      if (48 <=? c) && (c <=? 57) then digitsValue rest (acc * 10 + (c - 48))
      else None
  end.

(** The digits after the sign: there is at least one. *)
Definition unsignedPart (t : string) : option Z :=
  match t with
  | EmptyString => None
  | _ => digitsValue t 0
  end.

(** "Parse the string as a base-10 integer": an optional sign and at
    least one digit; the result is the integer the digits write. *)
Definition parseDecimal (s : string) : option Z :=
  match s with
  | EmptyString => None
  | String c0 rest =>
      if byteZ c0 =? 43 then
        match rest with EmptyString => None | _ => digitsValue rest 0 end
      else if byteZ c0 =? 45 then
        match rest with
        | EmptyString => None
        | _ => match digitsValue rest 0 with Some v => Some (- v) | None => None end
        end
      else digitsValue s 0
  end.

(** "On parse failure, or if the parsed value is at most 0, return 0;
    otherwise return value mod 10000." *)
Definition CleanInt (input : string) : Z :=
  match parseDecimal input with
  | None => 0
  | Some v => if v <=? 0 then 0 else v mod 10000
  end.

(** The table of [GetCropPoint]. *)
Definition anchors : list (string * processor.CropPoint) :=
  [ ("top", processor.CropTop); ("top,left", processor.CropTopLeft);
    ("top,right", processor.CropTopRight); ("left", processor.CropLeft);
    ("right", processor.CropRight); ("bottom", processor.CropBottom);
    ("bottom,left", processor.CropBottomLeft);
    ("bottom,right", processor.CropBottomRight) ].

End spec.

(** ** What a pass of writes over an image leaves *)

(** [p'] is [p] after the pixels that [P] selects, so far as they lie in
    the bounds, were set to the colours [f] gives; all else is as it was. *)
Definition painted (f : Z -> Z -> color.Color) (P : Z -> Z -> bool) (p p' : image.RGBA) : Prop :=
  image.Rect_ p' = image.Rect_ p /\
  forall x y, image.Pix p' !! (x, y) =
    if image.In (x, y) (image.Rect_ p) && P x y
    then Some (color.RGBAModel_Convert (f x y))
    else image.Pix p !! (x, y).

(** The rows [[a, b)], columns [[c, d)]. *)
Definition window (a b c d : Z) (x y : Z) : bool :=
  (a <=? y) && (y <? b) && (c <=? x) && (x <? d).

(** The gray pixel [grayScale] writes for a source pixel. *)
Definition grayPix (c : color.RGBA) : color.RGBA :=
  let g := color.Y (color.GrayModel_Convert (color.ofRGBA c)) in
  color.mkRGBA g g g (color.A c).

(** The bounds of an image a decoder returns: well formed, and no side
    beyond what PNG allows (JPEG allows less). *)
Definition decodedBounds (r : image.Rectangle) : Prop :=
  image.wellFormed r /\ image.Dx r < 2 ^ 31 /\ image.Dy r < 2 ^ 31.

(** ** What a run of the processor leaves *)

(** A duration metric of the processor: it sets no scope. *)
Definition duration (name : string) (d : Z) : metrics.UpdateOption :=
  {| metrics.Name := name; metrics.Type_ := metrics.Duration;
     metrics.Duration_ := d; metrics.Scope := "" |}.

(** The time a list of steps takes. *)
Definition costs (env : Env) (ws : list Work) : Z :=
  foldr (fun w acc => cost env w + acc) 0 ws.

(** The state after the steps [ws] were taken and the metrics [ms]
    recorded. *)
Definition took (env : Env) (ws : list Work) (ms : list metrics.UpdateOption) (s : Sys) : Sys :=
  {| now := now s + costs env ws; recorded := recorded s ++ ms; steps := steps s ++ ws |}.

(** The steps of [encode] and what it returns. *)
Definition encodeSteps (img : image.Image) (format : string) : list Work :=
  if String.eqb format native.pngType then
    [WorkIsOpaque img;
     if native.isOpaque img then WorkJpegEncode img else WorkPngEncode img]
  else [WorkJpegEncode img].

Definition encoded (env : Env) (img : image.Image) (format : string) : bytes * error :=
  if String.eqb format native.pngType && negb (native.isOpaque img)
  then png_Encode env png.BestCompression img
  else jpeg_encode env jpeg.DefaultQuality img.

(** The metric names a run added. *)
Definition names (s : Sys) {A} (run : Outcome A * Sys) : list string :=
  map metrics.Name (drop (length (recorded s)) (recorded (snd run))).

Definition returns {A} (run : Outcome A * Sys) : Prop := exists a, fst run = Done a.

Definition decodes (env : Env) (data : bytes) : Prop :=
  exists img f, image_Decode env data = inl (img, f).

(** The sizes [Watermark] asks [transform.Resize] for. *)
Definition overlayWidth (baseImg : image.Image) : Z :=
  float64.to_int (float64.div (float64.of_int (image.Dx (image.Bounds baseImg))) float64.two).

Definition overlayHeight (baseImg overlayImg : image.Image) : Z :=
  float64.to_int
    (float64.mul
       (float64.div (float64.of_int (image.Dx (image.Bounds baseImg))) float64.two)
       (float64.div (float64.of_int (image.Dy (image.Bounds overlayImg)))
                    (float64.of_int (image.Dx (image.Bounds overlayImg))))).

(** Where [Watermark] draws an overlay that was resized to [ov]. *)
Definition overlayRect (baseImg : image.Image) (ov : image.RGBA) : image.Rectangle :=
  image.Add (image.Rect_ ov)
    (image.Pt (Z.quot (image.Dx (image.Bounds baseImg) - image.Dx (image.Rect_ ov)) 2)
              (Z.quot (image.Dy (image.Bounds baseImg) - image.Dy (image.Rect_ ov)) 2)).

(** ** What the dispatcher and the processor record, and the time it covers *)

(** A duration metric of the dispatcher: it carries the scope of the
    request. *)
Definition scoped (name scope : string) (d : Z) : metrics.UpdateOption :=
  {| metrics.Name := name; metrics.Type_ := metrics.Duration;
     metrics.Duration_ := d; metrics.Scope := scope |}.

(** The state after the dispatcher recorded, under [name], the time since
    [t]. *)
Definition timed (name scope : string) (t : Z) (s : Sys) : Sys :=
  {| now := now s;
     recorded := recorded s ++ [{| metrics.Name := name; metrics.Type_ := metrics.Duration;
                                   metrics.Duration_ := now s - t; metrics.Scope := scope |}];
     steps := steps s |}.

(** The durations a run recorded, added up, and the time the run took. *)
Definition accounted (s : Sys) {A} (run : Outcome A * Sys) : Z :=
  foldr Z.add 0 (map metrics.Duration_ (drop (length (recorded s)) (recorded (snd run)))).

Definition elapsed (s : Sys) {A} (run : Outcome A * Sys) : Z := now (snd run) - now s.

(** ** Sample values *)

Module sample.
Import image.

Definition opaque : color.RGBA := color.mkRGBA Byte.x0a Byte.x14 Byte.x1e Byte.xff.
Definition faint : color.RGBA := color.mkRGBA Byte.x0a Byte.x14 Byte.x1e Byte.x80.

(** A 2x2 RGBA image, every pixel opaque. *)
Definition solid : Image :=
  ofRGBA (mkImg {[ (0, 0) := opaque; (1, 0) := opaque; (0, 1) := opaque; (1, 1) := opaque ]}
                (Rect 0 0 2 2)).

(** The same with one pixel that is not opaque. *)
Definition veiled : Image :=
  ofRGBA (mkImg {[ (0, 0) := opaque; (1, 0) := faint; (0, 1) := opaque; (1, 1) := opaque ]}
                (Rect 0 0 2 2)).

(** A 4x4 image as the JPEG decoder returns it. *)
Definition photo : Image :=
  ofKind KYCbCr (Rect 0 0 4 4) (fun x y => color.other (x * 4096) 32768 (y * 4096) 65535).

(** An image of no area, away from the origin. *)
Definition blank : Image :=
  ofKind KGray (mkRectangle (3, 3) (3, 7)) (fun _ _ => color.ofGray (color.mkGray Byte.x00)).

(** A 100x100 base, a 40x20 overlay and a 1000x1 overlay. *)
Definition base : Image := ofRGBA (mkImg ∅ (Rect 0 0 100 100)).
Definition badge : Image := ofRGBA (mkImg ∅ (Rect 0 0 40 20)).
Definition ribbon : Image := ofRGBA (mkImg ∅ (Rect 0 0 1000 1)).

(** The photo turned to gray. *)
Definition grayPhoto : Image :=
  match native.grayScale 4 photo with
  | Done g => g
  | Panic _ => photo
  end.

(** A decoder that knows the images above by their first byte, takes a
    file cut short for what it is, and gives back the gray photo from the
    bytes the encoder below writes. *)
Definition Decode (data : bytes) : (Image * string) + string :=
  match data with
  | [Byte.x01] => inl (solid, "png")
  | [Byte.x02] => inl (veiled, "png")
  | [Byte.x03] => inl (photo, "jpeg")
  | [Byte.x04] => inl (base, "png")
  | [Byte.x05] => inl (badge, "png")
  | [Byte.x06] => inl (ribbon, "png")
  | [Byte.x07] => inr "unexpected EOF"
  | [Byte.xff; Byte.xd8] => inl (grayPhoto, "jpeg")
  | _ => inr "image: unknown format"
  end.

Definition env : Env := {|
  GOMAXPROCS := 4;
  cost := fun w =>
    match w with
    | WorkDecode _ => 3
    | WorkIsOpaque _ => 1
    | WorkPngEncode _ => 7
    | WorkJpegEncode _ => 5
    | WorkResize _ _ _ => 11
    | WorkAsRGBA _ => 2
    | WorkGrayScale _ => 13
    | WorkDrawMask _ _ _ _ _ _ => 17
    end;
  image_Decode := Decode;
  png_Encode := fun _ _ => ([Byte.x89; Byte.x50], None);
  jpeg_encode := fun _ _ => ([Byte.xff; Byte.xd8], None);
  resample := fun _ _ _ => ∅;
  draw_DrawMask := fun dst _ _ _ _ _ => dst;
  effect_Grayscale := fun img => img;
  getResizeWidthAndHeightForCrop := fun w h _ _ => (w, h);
  getStartingPointForCrop := fun _ _ _ _ _ => (0, 0);
  getResizeWidthAndHeight := fun w h ow oh =>
    if (w =? 0) && (h =? 0) then (ow, oh) else (w, h)
|}.

Definition manip : service.manipulator :=
  {| service.processor_ := native.NewBildProcessor env |}.

(** A processor of another make: its crop fails, its grayscale returns
    one byte whatever it is given. *)
Definition flaky : processor.Processor :=
  {| processor.Crop := fun _ _ _ _ => ret ([], Some "crop failed");
     processor.Resize := fun data _ _ => ret (data, None);
     processor.Watermark := fun base _ _ => ret (base, None);
     processor.GrayScale := fun _ => ret ([Byte.x2a], None) |}.

Definition start : Sys := {| now := 1000; recorded := []; steps := [] |}.

(** Requests on a file cut short and on the solid image. *)
Definition cropMono : service.ProcessSpec :=
  {| service.Scope := "thumb"; service.ImageData := [Byte.x07];
     service.Params := {[ "fit" := "crop"; "w" := "10"; "h" := "10"; "mono" := "000000" ]} |}.

Definition cropOnly : service.ProcessSpec :=
  {| service.Scope := "thumb"; service.ImageData := [Byte.x01];
     service.Params := {[ "fit" := "crop"; "w" := "1"; "h" := "1" ]} |}.

Definition plain : service.ProcessSpec :=
  {| service.Scope := "thumb"; service.ImageData := [Byte.x01];
     service.Params := {[ "w" := "abc" ]} |}.

(** A 2x2 gray image whose bounds start at (5, 5). *)
Definition shifted : Image :=
  ofKind KGray (mkRectangle (5, 5) (7, 7)) (fun _ _ => color.ofGray (color.mkGray Byte.xc8)).

(** Requests with a fit mode the dispatcher does not know, with a crop
    and a grayscale, with a width alone, and with a grayscale alone. *)
Definition fill : service.ProcessSpec :=
  {| service.Scope := "thumb"; service.ImageData := [Byte.x01];
     service.Params := {[ "fit" := "fill"; "w" := "10" ]} |}.

Definition cropGray : service.ProcessSpec :=
  {| service.Scope := "thumb"; service.ImageData := [Byte.x01];
     service.Params := {[ "fit" := "crop"; "w" := "1"; "h" := "1"; "mono" := "000000" ]} |}.

Definition narrow : service.ProcessSpec :=
  {| service.Scope := "thumb"; service.ImageData := [Byte.x01];
     service.Params := {[ "w" := "1" ]} |}.

Definition gray : service.ProcessSpec :=
  {| service.Scope := "thumb"; service.ImageData := [Byte.x03];
     service.Params := {[ "mono" := "000000" ]} |}.

End sample.

(** * Properties *)

(** ** strconv.Atoi against the decimal reading *)

Section Atoi.
Import strconv.

Lemma byteZ_range (c : ascii) : 0 <= byteZ c < 256.
Proof.
  unfold byteZ. pose proof (N_ascii_bounded c) as H. lia.
Qed.

Lemma digitsValue_ge (s : string) : forall acc v,
  0 <= acc -> spec.digitsValue s acc = Some v -> acc <= v.
Proof.
  induction s as [|ch rest IH]; intros acc v Hacc H; simpl in H.
  - injection H as <-. lia.
  - destruct ((48 <=? byteZ ch) && (byteZ ch <=? 57)) eqn:E; [|discriminate].
    apply andb_true_iff in E as [E1 E2].
    apply Z.leb_le in E1, E2.
    apply IH in H; lia.
Qed.

(** The fast path reads the digits as the specification does. *)
Lemma Atoi_fast_loop_digits (s : string) : forall acc,
  Atoi_fast_loop s acc = spec.digitsValue s acc.
Proof.
  induction s as [|ch rest IH]; intros acc; simpl; [reflexivity|].
  pose proof (byteZ_range ch) as Hb.
  destruct ((48 <=? byteZ ch) && (byteZ ch <=? 57)) eqn:E.
  - apply andb_true_iff in E as [E1 E2].
    apply Z.leb_le in E1, E2.
    rewrite (Z.mod_small (byteZ ch - 48) 256) by lia.
    replace (9 <? byteZ ch - 48) with false by (symmetry; apply Z.ltb_ge; lia).
    apply IH.
  - replace (9 <? (byteZ ch - 48) mod 256) with true; [reflexivity|].
    symmetry. apply Z.ltb_lt.
    apply andb_false_iff in E as [E|E].
    + apply Z.leb_gt in E.
      replace ((byteZ ch - 48) mod 256) with (byteZ ch - 48 + 256); [lia|].
      apply Z.mod_unique with (q := -1); lia.
    + apply Z.leb_gt in E. rewrite Z.mod_small by lia. lia.
Qed.

(** The loop of [ParseUint]: without an error it has read the digits; a
    syntax error means a byte that is not a digit came before any
    overflow. *)
Lemma ParseUint_loop_sound (s : string) : forall n v e,
  0 <= n < 2 ^ 64 ->
  ParseUint_loop s n = (v, e) ->
  match e with
  | None => spec.digitsValue s n = Some v /\ 0 <= v < 2 ^ 64
  | Some ErrSyntax => spec.digitsValue s n = None /\ v = 0
  | Some ErrRange => v = maxUint64
  end.
Proof.
  induction s as [|ch rest IH]; intros n v e Hn H; simpl in H.
  - injection H as <- <-. simpl. auto.
  - simpl. pose proof (byteZ_range ch) as Hb.
    destruct ((48 <=? byteZ ch) && (byteZ ch <=? 57)) eqn:E.
    + apply andb_true_iff in E as [E1 E2].
      apply Z.leb_le in E1, E2.
      replace (10 <=? byteZ ch - 48) with false in H
        by (symmetry; apply Z.leb_gt; lia).
      destruct (maxUint64 / 10 + 1 <=? n) eqn:Ec.
      { injection H as <- <-. reflexivity. }
      apply Z.leb_gt in Ec.
      assert (Hc : n * 10 <= 2 ^ 64 - 6).
      { unfold maxUint64 in Ec. change ((2 ^ 64 - 1) / 10 + 1) with 1844674407370955162 in Ec.
        change (2 ^ 64) with 18446744073709551616. lia. }
      rewrite (Z.mod_small (n * 10)) in H by lia.
      destruct (((n * 10 + (byteZ ch - 48)) mod 2 ^ 64 <? n * 10)
                || (maxUint64 <? (n * 10 + (byteZ ch - 48)) mod 2 ^ 64)) eqn:Eo.
      { injection H as <- <-. reflexivity. }
      apply orb_false_iff in Eo as [Eo _]. apply Z.ltb_ge in Eo.
      assert (Hs : n * 10 + (byteZ ch - 48) < 2 ^ 64).
      { destruct (Z_lt_ge_dec (n * 10 + (byteZ ch - 48)) (2 ^ 64)) as [|Hge]; [assumption|].
        exfalso.
        assert ((n * 10 + (byteZ ch - 48)) mod 2 ^ 64 = n * 10 + (byteZ ch - 48) - 2 ^ 64) as Hm.
        { symmetry. apply Z.mod_unique with (q := 1); lia. }
        lia. }
      rewrite Z.mod_small in H by lia.
      apply IH in H; [exact H | lia].
    + destruct ((97 <=? lower (byteZ ch)) && (lower (byteZ ch) <=? 122)) eqn:El.
      * apply andb_true_iff in El as [El _]. apply Z.leb_le in El.
        replace (10 <=? lower (byteZ ch) - 97 + 10) with true in H
          by (symmetry; apply Z.leb_le; lia).
        injection H as <- <-. auto.
      * injection H as <- <-. auto.
Qed.

Lemma ParseUint_loop_complete (s : string) : forall n u,
  0 <= n ->
  spec.digitsValue s n = Some u ->
  u < 2 ^ 64 ->
  ParseUint_loop s n = (u, None).
Proof.
  induction s as [|ch rest IH]; intros n u Hn H Hu; simpl in H |- *.
  - congruence.
  - destruct ((48 <=? byteZ ch) && (byteZ ch <=? 57)) eqn:E; [|discriminate].
    apply andb_true_iff in E as [E1 E2].
    apply Z.leb_le in E1, E2.
    assert (Hge : n * 10 + (byteZ ch - 48) <= u) by (apply (digitsValue_ge rest); [lia | exact H]).
    replace (10 <=? byteZ ch - 48) with false by (symmetry; apply Z.leb_gt; lia).
    change (2 ^ 64) with 18446744073709551616 in *.
    replace (maxUint64 / 10 + 1 <=? n) with false.
    2:{ symmetry. apply Z.leb_gt. change (maxUint64 / 10 + 1) with 1844674407370955162. lia. }
    rewrite (Z.mod_small (n * 10)) by lia.
    rewrite Z.mod_small by lia.
    replace (n * 10 + (byteZ ch - 48) <? n * 10) with false
      by (symmetry; apply Z.ltb_ge; lia).
    replace (maxUint64 <? n * 10 + (byteZ ch - 48)) with false.
    2:{ symmetry. apply Z.ltb_ge. change maxUint64 with 18446744073709551615. lia. }
    simpl. apply IH; [lia | assumption | assumption].
Qed.

Lemma neg64_small (u : Z) : 0 <= u <= 2 ^ 63 -> neg64 (int64_of_uint64 u) = - u.
Proof.
  intros Hu. unfold neg64, int64_of_uint64.
  change (2 ^ 63) with 9223372036854775808 in *.
  change (2 ^ 64) with 18446744073709551616 in *.
  destruct (u <? 9223372036854775808) eqn:E.
  - apply Z.ltb_lt in E.
    destruct (Z.eq_dec u 0) as [->|Hnz]; [reflexivity|].
    replace (- u mod 18446744073709551616) with (18446744073709551616 - u).
    2:{ apply Z.mod_unique with (q := -1); lia. }
    replace (18446744073709551616 - u <? 9223372036854775808) with false
      by (symmetry; apply Z.ltb_ge; lia).
    lia.
  - apply Z.ltb_ge in E. assert (u = 9223372036854775808) as -> by lia.
    reflexivity.
Qed.

Lemma parseDecimal_unfold (c0 : ascii) (rest : string) :
  spec.parseDecimal (String c0 rest) =
  match spec.unsignedPart (if byteZ c0 =? 43 then rest
                      else if byteZ c0 =? 45 then rest else String c0 rest) with
  | Some u => Some (if byteZ c0 =? 45 then - u else u)
  | None => None
  end.
Proof.
  unfold spec.parseDecimal, spec.unsignedPart.
  destruct (byteZ c0 =? 43) eqn:E43.
  - assert ((byteZ c0 =? 45) = false) as -> by (apply Z.eqb_eq in E43; apply Z.eqb_neq; lia).
    destruct rest; [reflexivity|]. destruct (spec.digitsValue _ 0); reflexivity.
  - destruct (byteZ c0 =? 45).
    + destruct rest; [reflexivity|]. destruct (spec.digitsValue _ 0); reflexivity.
    + destruct (spec.digitsValue _ 0); reflexivity.
Qed.

Lemma ParseUint_sound (t : string) :
  match ParseUint t with
  | (u, None) => spec.unsignedPart t = Some u /\ 0 <= u < 2 ^ 64
  | (u, Some ErrSyntax) => spec.unsignedPart t = None /\ u = 0
  | (u, Some ErrRange) => u = maxUint64
  end.
Proof.
  destruct t as [|c r]; [simpl; auto|].
  change (ParseUint (String c r)) with (ParseUint_loop (String c r) 0).
  change (spec.unsignedPart (String c r)) with (spec.digitsValue (String c r) 0).
  destruct (ParseUint_loop (String c r) 0) as [v e] eqn:EP.
  exact (ParseUint_loop_sound _ 0 v e ltac:(lia) EP).
Qed.

(** [ParseInt] on a string whose digits do not overflow. *)
Lemma ParseInt_no_range (s : string) :
  snd (ParseInt s) <> Some ErrRange ->
  match spec.parseDecimal s with
  | Some v => ParseInt s = (v, None)
  | None => ParseInt s = (0, Some ErrSyntax)
  end.
Proof.
  destruct s as [|c0 rest]; [reflexivity|].
  rewrite parseDecimal_unfold. unfold ParseInt.
  set (s' := if byteZ c0 =? 43 then rest else if byteZ c0 =? 45 then rest else String c0 rest).
  pose proof (ParseUint_sound s') as Hs.
  destruct (ParseUint s') as [un [[|]|]].
  - destruct Hs as [-> _]. reflexivity.
  - subst un. intros Hr. exfalso. apply Hr.
    destruct (byteZ c0 =? 45); reflexivity.
  - destruct Hs as [-> Hu].
    change (2 ^ 64) with 18446744073709551616 in *.
    change (2 ^ 63) with 9223372036854775808 in *.
    destruct (byteZ c0 =? 45) eqn:E45; simpl.
    + destruct (9223372036854775808 <? un) eqn:Ec; simpl;
        [intros Hr; exfalso; apply Hr; reflexivity|].
      intros _. apply Z.ltb_ge in Ec.
      f_equal. apply neg64_small. change (2 ^ 63) with 9223372036854775808. lia.
    + destruct (9223372036854775808 <=? un) eqn:Ec; simpl;
        [intros Hr; exfalso; apply Hr; reflexivity|].
      intros _. apply Z.leb_gt in Ec.
      unfold int64_of_uint64. change (2 ^ 63) with 9223372036854775808.
      replace (un <? 9223372036854775808) with true by (symmetry; apply Z.ltb_lt; lia).
      reflexivity.
Qed.

(** [Atoi] on a string whose digits do not overflow: it returns what the
    string reads as, and 0 with a syntax error when it reads as nothing. *)
Lemma Atoi_no_range (s : string) :
  snd (Atoi s) <> Some ErrRange ->
  match spec.parseDecimal s with
  | Some v => Atoi s = (v, None)
  | None => Atoi s = (0, Some ErrSyntax)
  end.
Proof.
  unfold Atoi.
  destruct ((0 <? Z.of_nat (String.length s)) && (Z.of_nat (String.length s) <? 19)) eqn:El;
    [|apply ParseInt_no_range].
  intros _. destruct s as [|c0 rest]; [reflexivity|].
  rewrite parseDecimal_unfold. unfold spec.unsignedPart.
  rewrite !Atoi_fast_loop_digits.
  destruct (byteZ c0 =? 45) eqn:E45; cbn [orb andb].
  - assert ((byteZ c0 =? 43) = false) as -> by (apply Z.eqb_eq in E45; apply Z.eqb_neq; lia).
    destruct rest as [|c1 r1]; [reflexivity|].
    replace (Z.of_nat (String.length (String c1 r1)) <? 1) with false
      by (symmetry; apply Z.ltb_ge; simpl String.length; lia).
    destruct (spec.digitsValue (String c1 r1) 0); reflexivity.
  - destruct (byteZ c0 =? 43) eqn:E43; cbn [orb andb].
    + destruct rest as [|c1 r1]; [reflexivity|].
      replace (Z.of_nat (String.length (String c1 r1)) <? 1) with false
        by (symmetry; apply Z.ltb_ge; simpl String.length; lia).
      destruct (spec.digitsValue (String c1 r1) 0); reflexivity.
    + destruct (spec.digitsValue (String c0 rest) 0); reflexivity.
Qed.

(** A string that reads as an integer of the [int] range never gives a
    range error. *)
Lemma Atoi_in_range (s : string) (v : Z) :
  spec.parseDecimal s = Some v ->
  MinInt <= v <= MaxInt ->
  snd (Atoi s) = None.
Proof.
  intros Hp Hv.
  unfold Atoi.
  destruct ((0 <? Z.of_nat (String.length s)) && (Z.of_nat (String.length s) <? 19)) eqn:El.
  - assert (Hn : snd (Atoi s) <> Some ErrRange -> snd (Atoi s) = None).
    { intros H. apply Atoi_no_range in H. rewrite Hp in H. rewrite H. reflexivity. }
    unfold Atoi in Hn. rewrite El in Hn. apply Hn.
    destruct s as [|c0 rest]; [simpl; discriminate|].
    destruct ((byteZ c0 =? 45) || (byteZ c0 =? 43)) eqn:Es; cbn [andb].
    + destruct (Z.of_nat (String.length rest) <? 1); [simpl; discriminate|].
      destruct (Atoi_fast_loop rest 0); simpl; discriminate.
    + destruct (Atoi_fast_loop (String c0 rest) 0); simpl; discriminate.
  - destruct s as [|c0 rest]; [discriminate|].
    rewrite parseDecimal_unfold in Hp. unfold ParseInt.
    set (s' := if byteZ c0 =? 43 then rest else if byteZ c0 =? 45 then rest else String c0 rest) in *.
    destruct (spec.unsignedPart s') as [u|] eqn:Eu; [|discriminate].
    injection Hp as Hp.
    assert (Hu0 : 0 <= u).
    { destruct s' as [|c1 r1]; [discriminate|].
      apply (digitsValue_ge (String c1 r1) 0 u); [lia | exact Eu]. }
    unfold MinInt, MaxInt in Hv.
    change (2 ^ 63) with 9223372036854775808 in *.
    assert (Hu : u < 2 ^ 64).
    { change (2 ^ 64) with 18446744073709551616. destruct (byteZ c0 =? 45); lia. }
    assert (EP : ParseUint s' = (u, None)).
    { destruct s' as [|c1 r1]; [discriminate|].
      apply (ParseUint_loop_complete (String c1 r1) 0 u); [lia | exact Eu | exact Hu]. }
    rewrite EP.
    destruct (byteZ c0 =? 45) eqn:E45; simpl.
    + replace (9223372036854775808 <? u) with false by (symmetry; apply Z.ltb_ge; lia).
      reflexivity.
    + replace (9223372036854775808 <=? u) with false by (symmetry; apply Z.leb_gt; lia).
      reflexivity.
Qed.

End Atoi.

(** ** CleanInt *)

Lemma CleanInt_bounds (s : string) : 0 <= service.CleanInt s <= 9999.
Proof.
  unfold service.CleanInt. destruct (strconv.Atoi s) as [val e].
  destruct (val <=? 0) eqn:E; [lia|].
  apply Z.leb_gt in E.
  pose proof (Z.rem_bound_pos val 10000 ltac:(lia) ltac:(lia)). lia.
Qed.

Lemma CleanInt_no_range (s : string) :
  snd (strconv.Atoi s) <> Some strconv.ErrRange ->
  service.CleanInt s = spec.CleanInt s.
Proof.
  intros H. apply Atoi_no_range in H.
  unfold service.CleanInt, spec.CleanInt.
  destruct (spec.parseDecimal s) as [v|]; rewrite H; [|reflexivity].
  destruct (v <=? 0) eqn:E; [reflexivity|].
  apply Z.leb_gt in E. apply Z.rem_mod_nonneg; lia.
Qed.

Lemma CleanInt_Itoa_check :
  forallb (fun v => service.CleanInt (strconv.Itoa v) =? v) (seqZ 1 9999) = true.
Proof. vm_compute. reflexivity. Qed.

Lemma CleanInt_Itoa (v : Z) : 0 < v < 10000 -> service.CleanInt (strconv.Itoa v) = v.
Proof.
  intros Hv. pose proof CleanInt_Itoa_check as H.
  rewrite forallb_forall in H.
  apply Z.eqb_eq, H, list_elem_of_In, elem_of_seqZ. lia.
Qed.

(** C3, as the claim words it, fails: on digits beyond the [int] range
    [Atoi] reports a range error together with the largest [int], and
    [CleanInt], which drops the error, returns 5807: neither 0 (a parse
    failure) nor the value modulo 10000 (5808 for the first string).  The
    range error also comes before a later byte that is no digit is seen. *)
Lemma CleanInt_range_counterexample :
  snd (strconv.Atoi "9223372036854775808") = Some strconv.ErrRange /\
  service.CleanInt "9223372036854775808" = 5807 /\
  spec.CleanInt "9223372036854775808" = 5808 /\
  spec.parseDecimal "99999999999999999999x" = None /\
  service.CleanInt "99999999999999999999x" = 5807 /\
  spec.CleanInt "99999999999999999999x" = 0.
Proof. vm_compute. repeat split; reflexivity. Qed.

(** C3, amended: for every input string the result of [CleanInt] lies in
    [0, 9999]; for every input string on which [Atoi] reports no range
    error (every string that reads as an integer of the 64-bit range is
    one) [CleanInt] returns 0 when the string does not read as a base-10
    integer or reads as a value at most 0, and the value modulo 10000
    otherwise; [CleanInt(str(v)) = v] for 0 < v < 10000, and the four
    examples hold. *)
Theorem CleanInt_amended :
  (forall s, 0 <= service.CleanInt s <= 9999) /\
  (forall s, snd (strconv.Atoi s) <> Some strconv.ErrRange ->
             service.CleanInt s = spec.CleanInt s) /\
  (forall s v, spec.parseDecimal s = Some v ->
               strconv.MinInt <= v <= strconv.MaxInt ->
               snd (strconv.Atoi s) <> Some strconv.ErrRange) /\
  (forall v, 0 < v < 10000 -> service.CleanInt (strconv.Itoa v) = v) /\
  service.CleanInt "0" = 0 /\ service.CleanInt "-3" = 0 /\
  service.CleanInt "10005" = 5 /\ service.CleanInt "abc" = 0.
Proof.
  split; [exact CleanInt_bounds|].
  split; [exact CleanInt_no_range|].
  split.
  { intros s v Hp Hv. rewrite (Atoi_in_range s v Hp Hv). discriminate. }
  split; [exact CleanInt_Itoa|].
  repeat split; reflexivity.
Qed.

Lemma CleanInt_amended_witness :
  service.CleanInt "10005" = spec.CleanInt "10005" /\
  service.CleanInt (strconv.Itoa 42) = 42.
Proof.
  destruct CleanInt_amended as (_ & Heq & Hin & Hrt & _).
  split.
  - apply Heq. apply (Hin "10005" 10005); [reflexivity | vm_compute; split; discriminate].
  - apply Hrt. lia.
Defined.

(** ** GetCropPoint *)

(** C5: [GetCropPoint] returns the anchor of the table for each of its
    eight strings, none of which is the centre, and the centre for every
    other string, the empty one, "TOP" and "center" among them; being a
    function into the anchors it has no error to signal. *)
Theorem GetCropPoint_table :
  forall s : string,
    (forall p, In (s, p) spec.anchors ->
               service.GetCropPoint s = p /\ p <> processor.CropCenter) /\
    ((forall p, ~ In (s, p) spec.anchors) ->
     service.GetCropPoint s = processor.CropCenter) /\
    service.GetCropPoint "" = processor.CropCenter /\
    service.GetCropPoint "TOP" = processor.CropCenter /\
    service.GetCropPoint "center" = processor.CropCenter /\
    length spec.anchors = 8%nat.
Proof.
  intros s. split; [|split; [|repeat split; reflexivity]].
  - intros p Hin. simpl in Hin.
    repeat (destruct Hin as [Hin|Hin];
            [injection Hin as <- <-; split; [reflexivity | discriminate]|]).
    destruct Hin.
  - intros Hn. unfold service.GetCropPoint.
    repeat match goal with
    | |- context [String.eqb s ?t] =>
        destruct (String.eqb_spec s t) as [->|_];
        [exfalso; eapply Hn; simpl; eauto 10|]
    end.
    reflexivity.
Qed.


(** ** The dispatcher *)

Section Dispatcher.
Import processor service.

Variable m : manipulator.
Variable ps : ProcessSpec.

Local Ltac run_process :=
  unfold Process, bind, ret, lift, invoke, durationMetric, time.Now, time.Since,
    metrics_Update, bind, ret; simpl.

Local Ltac split_calls :=
  repeat (simpl; match goal with
  | |- context [Crop ?p ?a ?b ?c ?d ?s] => destruct (Crop p a b c d s) as [[[? [?|]]|?] ?]
  | |- context [Resize ?p ?a ?b ?c ?s] => destruct (Resize p a b c s) as [[[? [?|]]|?] ?]
  | |- context [GrayScale ?p ?a ?s] => destruct (GrayScale p a s) as [[[? [?|]]|?] ?]
  | |- context [String.eqb ?a ?b] => destruct (String.eqb a b) eqn:?
  | |- context [Z.eqb ?a ?b] => destruct (Z.eqb a b) eqn:?
  end); simpl.

Lemma Process_crop_no_resize (s : Sys) :
  index (Params ps) fit = crop ->
  forallb (fun c => negb (isResize c)) (snd (snd (Process m ps (s, [])))) = true.
Proof.
  intros Hfit. run_process. rewrite Hfit. simpl.
  split_calls; reflexivity.
Qed.

Lemma Process_no_size_mono (s : Sys) :
  index (Params ps) fit = "" ->
  CleanInt (index (Params ps) width) = 0 ->
  CleanInt (index (Params ps) height) = 0 ->
  index (Params ps) mono = blackHexCode ->
  snd (snd (Process m ps (s, []))) = [CallGrayScale (ImageData ps)].
Proof.
  intros Hfit Hw Hh Hmono. run_process. rewrite Hfit, Hw, Hh, Hmono. simpl.
  split_calls; reflexivity.
Qed.

Lemma Process_no_size_plain (s : Sys) :
  index (Params ps) fit = "" ->
  CleanInt (index (Params ps) width) = 0 ->
  CleanInt (index (Params ps) height) = 0 ->
  index (Params ps) mono <> blackHexCode ->
  Process m ps (s, []) = (Done (ImageData ps, None), (s, [])).
Proof.
  intros Hfit Hw Hh Hmono. run_process. rewrite Hfit, Hw, Hh. simpl.
  destruct (String.eqb_spec (index (Params ps) mono) blackHexCode) as [E|_];
    [contradiction|reflexivity].
Qed.

(** When the crop fails and no grayscale is asked for, the error of the
    crop is what [Process] returns, the bytes are the ones the failing
    call returned, nothing else is called and no metric is recorded by
    the dispatcher. *)
Lemma Process_crop_error_alone (s s1 : Sys) (d : bytes) (e : string) :
  index (Params ps) fit = crop ->
  index (Params ps) mono <> blackHexCode ->
  Crop (processor_ m) (ImageData ps) (CleanInt (index (Params ps) width))
       (CleanInt (index (Params ps) height)) (GetCropPoint (index (Params ps) crop)) s
    = (Done (d, Some e), s1) ->
  Process m ps (s, []) =
    (Done (d, Some e),
     (s1, [CallCrop (ImageData ps) (CleanInt (index (Params ps) width))
                    (CleanInt (index (Params ps) height))
                    (GetCropPoint (index (Params ps) crop))])).
Proof.
  intros Hfit Hmono Hc. run_process. rewrite Hfit. simpl. rewrite Hc. simpl.
  destruct (String.eqb_spec (index (Params ps) mono) blackHexCode) as [E|_];
    [contradiction|reflexivity].
Qed.

(** When the crop fails and grayscale is asked for, [GrayScale] is still
    called, on the bytes the failing crop returned, and what [Process]
    returns is what that call returns: the error of the crop is lost. *)
Lemma Process_crop_error_then_mono (s s1 s2 : Sys) (d d' : bytes) (e : string) (e' : error) :
  index (Params ps) fit = crop ->
  index (Params ps) mono = blackHexCode ->
  Crop (processor_ m) (ImageData ps) (CleanInt (index (Params ps) width))
       (CleanInt (index (Params ps) height)) (GetCropPoint (index (Params ps) crop)) s
    = (Done (d, Some e), s1) ->
  GrayScale (processor_ m) d s1 = (Done (d', e'), s2) ->
  fst (Process m ps (s, [])) = Done (d', e') /\
  snd (snd (Process m ps (s, []))) =
    [CallCrop (ImageData ps) (CleanInt (index (Params ps) width))
              (CleanInt (index (Params ps) height))
              (GetCropPoint (index (Params ps) crop));
     CallGrayScale d].
Proof.
  intros Hfit Hmono Hc Hg. run_process. rewrite Hfit, Hmono. simpl.
  rewrite Hc. simpl. rewrite Hg. simpl. destruct e'; simpl; auto.
Qed.

(** C4: with [fit] equal to "crop" no call of [Resize] is made, whatever
    the width and the height; with [fit] empty and both cleaned sizes 0
    neither [Crop] nor [Resize] is called: without the mono parameter the
    bytes come back as they were, with no error, no call and nothing
    recorded, and with it the only call is [GrayScale] on the bytes as
    they were. *)
Theorem Process_exclusive (s : Sys) :
  (index (Params ps) fit = crop ->
   forallb (fun c => negb (isResize c)) (snd (snd (Process m ps (s, [])))) = true) /\
  (index (Params ps) fit = "" ->
   CleanInt (index (Params ps) width) = 0 ->
   CleanInt (index (Params ps) height) = 0 ->
   forallb (fun c => negb (isCrop c) && negb (isResize c))
           (snd (snd (Process m ps (s, [])))) = true /\
   (index (Params ps) mono <> blackHexCode ->
    Process m ps (s, []) = (Done (ImageData ps, None), (s, []))) /\
   (index (Params ps) mono = blackHexCode ->
    snd (snd (Process m ps (s, []))) = [CallGrayScale (ImageData ps)])).
Proof.
  split; [apply Process_crop_no_resize|].
  intros Hfit Hw Hh.
  split; [|split; [apply Process_no_size_plain | apply Process_no_size_mono]; assumption].
  destruct (String.eqb_spec (index (Params ps) mono) blackHexCode) as [E|E].
  - rewrite Process_no_size_mono by assumption. reflexivity.
  - rewrite Process_no_size_plain by assumption. reflexivity.
Qed.

End Dispatcher.

Lemma Process_exclusive_witness :
  forallb (fun c => negb (processor.isResize c))
          (snd (snd (service.Process sample.manip sample.cropOnly (sample.start, [])))) = true /\
  service.Process sample.manip sample.plain (sample.start, [])
    = (Done ([Byte.x01], None), (sample.start, [])).
Proof.
  split.
  - apply (Process_exclusive sample.manip sample.cropOnly sample.start). reflexivity.
  - apply (Process_exclusive sample.manip sample.plain sample.start);
      [reflexivity | reflexivity | reflexivity | discriminate].
Defined.

(** C1 at a failing input: a file cut short, to be cropped and turned to
    gray.  [Crop] fails with the decoder's "unexpected EOF" and returns no
    bytes; [Process] goes on to call [GrayScale] on those bytes and returns
    the error of that second call instead.  On a processor whose grayscale
    succeeds on what the failed crop left, [Process] returns bytes and no
    error at all, and records the grayscale metric. *)
Theorem Process_error_not_returned :
  native.Crop sample.env [Byte.x07] 10 10 processor.CropCenter sample.start
    = (Done ([], Some "unexpected EOF"),
       {| now := 1003; recorded := []; steps := [WorkDecode [Byte.x07]] |}) /\
  service.Process sample.manip sample.cropMono (sample.start, [])
    = (Done ([], Some "image: unknown format"),
       ({| now := 1006; recorded := [];
           steps := [WorkDecode [Byte.x07]; WorkDecode []] |},
        [processor.CallCrop [Byte.x07] 10 10 processor.CropCenter;
         processor.CallGrayScale []])) /\
  service.Process {| service.processor_ := sample.flaky |} sample.cropMono (sample.start, [])
    = (Done ([Byte.x2a], None),
       ({| now := 1000;
           recorded := [{| metrics.Name := "grayScaleDuration";
                           metrics.Type_ := metrics.Duration;
                           metrics.Duration_ := 0; metrics.Scope := "thumb" |}];
           steps := [] |},
        [processor.CallCrop [Byte.x07] 10 10 processor.CropCenter;
         processor.CallGrayScale []])).
Proof. vm_compute. repeat split; reflexivity. Qed.

(** ** The format selector *)

Section Encode.
Import image native.

Lemma In_seqZ (x y : Z) (r : Rectangle) :
  In (x, y) r = true <->
  (x ∈ seqZ (X (Min r)) (Dx r)) /\ (y ∈ seqZ (Y (Min r)) (Dy r)).
Proof.
  unfold In, Dx, Dy. simpl. rewrite !elem_of_seqZ, !andb_true_iff, !Z.leb_le, !Z.ltb_lt.
  lia.
Qed.

Lemma isOpaque_spec (img : Image) : isOpaque img = true <-> allOpaque img.
Proof.
  unfold isOpaque, allOpaque. rewrite forallb_forall. split.
  - intros H x y Hin. apply In_seqZ in Hin as [Hx Hy].
    apply list_elem_of_In in Hx, Hy.
    specialize (H y Hy). rewrite forallb_forall in H.
    apply Z.eqb_eq, H, Hx.
  - intros H y Hy. rewrite forallb_forall. intros x Hx.
    apply list_elem_of_In in Hx, Hy.
    apply Z.eqb_eq, H, In_seqZ. auto.
Qed.

Variable env : Env.

Lemma encode_jpeg (img : Image) (format : string) (s : Sys) :
  (format = pngType -> allOpaque img) ->
  fst (encode env img format s) = Done (jpeg_encode env jpeg.DefaultQuality img).
Proof.
  intros H. unfold encode, bind, ret, work, durationMetric, time.Now, time.Since,
    metrics_Update, bind, ret.
  destruct (String.eqb_spec format pngType) as [E|E]; simpl.
  - apply H, isOpaque_spec in E. rewrite E. simpl.
    unfold jpeg.Encode. destruct (jpeg_encode env jpeg.DefaultQuality img). reflexivity.
  - destruct (String.eqb_spec format pngType) as [E'|_]; [contradiction|]. simpl.
    unfold jpeg.Encode. destruct (jpeg_encode env jpeg.DefaultQuality img). reflexivity.
Qed.

Lemma encode_png (img : Image) (s : Sys) :
  ~ allOpaque img ->
  fst (encode env img pngType s) = Done (png_Encode env png.BestCompression img).
Proof.
  intros H. unfold encode, bind, ret, work, durationMetric, time.Now, time.Since,
    metrics_Update, bind, ret.
  destruct (isOpaque img) eqn:E; [apply isOpaque_spec in E; contradiction|].
  simpl. destruct (png_Encode env png.BestCompression img). reflexivity.
Qed.

(** C6: at encode time an image tagged PNG whose every pixel is fully
    opaque goes to the JPEG encoder with the default quality; any other
    image tagged PNG goes to the PNG encoder with the best compression;
    an image with any other tag goes to the JPEG encoder with the default
    quality. *)
Theorem encode_selects (img : Image) (format : string) (s : Sys) :
  (format = pngType -> allOpaque img ->
   fst (encode env img format s) = Done (jpeg_encode env jpeg.DefaultQuality img)) /\
  (format = pngType -> ~ allOpaque img ->
   fst (encode env img format s) = Done (png_Encode env png.BestCompression img)) /\
  (format <> pngType ->
   fst (encode env img format s) = Done (jpeg_encode env jpeg.DefaultQuality img)) /\
  jpeg.DefaultQuality = 75.
Proof.
  repeat split.
  - intros _ H. apply encode_jpeg. auto.
  - intros -> H. apply encode_png. exact H.
  - intros H. apply encode_jpeg. intros E. contradiction.
Qed.

End Encode.

Lemma solid_allOpaque : native.allOpaque sample.solid.
Proof. apply isOpaque_spec. vm_compute. reflexivity. Qed.

Lemma veiled_not_allOpaque : ~ native.allOpaque sample.veiled.
Proof. intros H. apply isOpaque_spec in H. vm_compute in H. discriminate. Qed.

Lemma encode_selects_witness :
  fst (native.encode sample.env sample.solid "png" sample.start)
    = Done ([Byte.xff; Byte.xd8], None) /\
  fst (native.encode sample.env sample.veiled "png" sample.start)
    = Done ([Byte.x89; Byte.x50], None) /\
  fst (native.encode sample.env sample.photo "jpeg" sample.start)
    = Done ([Byte.xff; Byte.xd8], None).
Proof.
  destruct (encode_selects sample.env sample.solid "png" sample.start) as (H1 & _).
  destruct (encode_selects sample.env sample.veiled "png" sample.start) as (_ & H2 & _).
  destruct (encode_selects sample.env sample.photo "jpeg" sample.start) as (_ & _ & H3 & _).
  split; [|split].
  - apply H1; [reflexivity | exact solid_allOpaque].
  - apply H2; [reflexivity | exact veiled_not_allOpaque].
  - apply H3. discriminate.
Defined.

(** ** grayScale *)

Section Painting.
Import image.
Variable f : Z -> Z -> color.Color.

Lemma painted_refl (P : Z -> Z -> bool) (p : RGBA) :
  (forall x y, P x y = false) -> painted f P p p.
Proof.
  intros H. split; [reflexivity|]. intros x y. rewrite H, andb_false_r. reflexivity.
Qed.

Lemma painted_ext (P Q : Z -> Z -> bool) (p p' : RGBA) :
  (forall x y, P x y = Q x y) -> painted f P p p' -> painted f Q p p'.
Proof.
  intros H [Hr Hp]. split; [exact Hr|]. intros x y. rewrite <- H. apply Hp.
Qed.

Lemma painted_trans (P Q : Z -> Z -> bool) (p p1 p2 : RGBA) :
  painted f P p p1 -> painted f Q p1 p2 ->
  painted f (fun x y => P x y || Q x y) p p2.
Proof.
  intros [Hr1 H1] [Hr2 H2]. split; [congruence|].
  intros x y. rewrite H2, H1, Hr1.
  destruct (In (x, y) (Rect_ p)), (P x y), (Q x y); reflexivity.
Qed.

Lemma painted_Set (p : RGBA) (x y : Z) :
  painted f (fun x' y' => (x' =? x) && (y' =? y)) p (Set_ p x y (f x y)).
Proof.
  unfold Set_. destruct (In (x, y) (Rect_ p)) eqn:E.
  - split; [reflexivity|]. intros x' y'. simpl.
    destruct (Z.eqb_spec x' x) as [->|Hx]; [destruct (Z.eqb_spec y' y) as [->|Hy]|].
    + rewrite E. simpl. apply lookup_insert_eq.
    + rewrite andb_false_r. apply lookup_insert_ne. congruence.
    + rewrite andb_false_r. apply lookup_insert_ne. congruence.
  - split; [reflexivity|]. intros x' y'.
    destruct (Z.eqb_spec x' x) as [->|Hx]; [destruct (Z.eqb_spec y' y) as [->|Hy]|];
      rewrite ?E, ?andb_false_r; reflexivity.
Qed.

(** A loop whose every round paints paints the union of the rounds. *)
Lemma painted_foldl (body : Z -> RGBA -> RGBA) (Q : Z -> Z -> Z -> bool) (l : list Z) :
  (forall i p, painted f (Q i) p (body i p)) ->
  forall p, painted f (fun x y => existsb (fun i => Q i x y) l) p
              (foldl (fun p i => body i p) p l).
Proof.
  intros Hb. induction l as [|i l IH]; intros p; simpl.
  - apply painted_refl. reflexivity.
  - eapply painted_ext; [|eapply painted_trans; [apply (Hb i p) | apply IH]].
    reflexivity.
Qed.

Lemma existsb_seqZ (g : Z -> bool) (lo n : Z) (h : bool) :
  (h = true <-> exists i, lo <= i < lo + n /\ g i = true) ->
  existsb g (seqZ lo n) = h.
Proof.
  intros H. apply eq_true_iff_eq. rewrite H, existsb_exists.
  split; intros (i & Hi & Hg); exists i; split; auto.
  - apply list_elem_of_In, elem_of_seqZ in Hi. lia.
  - apply list_elem_of_In, elem_of_seqZ. lia.
Qed.

Lemma painted_for_range (body : Z -> RGBA -> RGBA) (Q : Z -> Z -> Z -> bool)
      (lo hi : Z) (R : Z -> Z -> bool) :
  (forall i p, painted f (Q i) p (body i p)) ->
  (forall x y, R x y = true <-> exists i, lo <= i < hi /\ Q i x y = true) ->
  forall p, painted f R p (for_range lo hi body p).
Proof.
  intros Hb HR p. unfold for_range.
  eapply painted_ext; [|apply painted_foldl, Hb].
  intros x y. simpl. apply existsb_seqZ. rewrite HR.
  split; intros (i & Hi & Hq); exists i; split; auto; lia.
Qed.


Local Ltac bool_lia :=
  repeat match goal with
  | |- context [if ?a <? ?b then _ else _] => destruct (Z.ltb_spec a b)
  | |- context [?a <=? ?b] => destruct (Z.leb_spec a b)
  | |- context [?a <? ?b] => destruct (Z.ltb_spec a b)
  | |- context [?a =? ?b] => destruct (Z.eqb_spec a b)
  end; simpl; try reflexivity; try lia.

Lemma window_true (a b c d x y : Z) :
  window a b c d x y = true <-> a <= y < b /\ c <= x < d.
Proof. unfold window. rewrite !andb_true_iff, !Z.leb_le, !Z.ltb_lt. lia. Qed.

Lemma painted_rows (a b c d : Z) (p : RGBA) :
  painted f (window a b c d) p
    (for_range a b (fun y p => for_range c d (fun x p => Set_ p x y (f x y)) p) p).
Proof.
  apply painted_for_range with (Q := fun i x y => (y =? i) && (c <=? x) && (x <? d)).
  - intros i q.
    apply painted_for_range with (Q := fun j x y => (x =? j) && (y =? i)).
    + intros j r. apply painted_Set.
    + intros x y. rewrite !andb_true_iff, Z.leb_le, Z.ltb_lt, Z.eqb_eq. split.
      * intros [[-> H1] H2]. exists x. rewrite !Z.eqb_refl. auto.
      * intros (j & Hj & H). apply andb_true_iff in H as [H1 H2].
        apply Z.eqb_eq in H1, H2. lia.
  - intros x y. rewrite window_true. split.
    + intros [H1 H2]. exists y. split; [lia|].
      rewrite Z.eqb_refl. simpl. apply andb_true_iff. rewrite Z.leb_le, Z.ltb_lt. lia.
    + intros (i & Hi & H). rewrite !andb_true_iff, Z.leb_le, Z.ltb_lt, Z.eqb_eq in H. lia.
Qed.

(** [parallel.Line] with a body that paints the rows it is given paints
    the rows [[0, length)], whatever the number of processors. *)
Section Line.
Variable fn : Z -> Z -> RGBA -> RGBA.
Variables c d : Z.
Hypothesis fn_paints : forall a b p, painted f (window a b c d) p (fn a b p).

Lemma Line_loop_painted (partSize : Z) (fuel : nat) :
  0 < partSize ->
  forall counter p,
    counter <= Z.of_nat fuel ->
    painted f (window 0 counter c d) p (parallel.Line_loop fuel counter partSize fn p).
Proof.
  intros Hps. induction fuel as [|fuel IH]; intros counter p Hc; simpl.
  - apply painted_refl. intros x y. unfold window. bool_lia.
  - destruct (Z.ltb_spec 0 counter) as [Hpos|Hneg].
    + eapply painted_ext;
        [|eapply painted_trans; [apply fn_paints | apply (IH (counter - partSize)); lia]].
      intros x y. unfold window. bool_lia.
    + apply painted_refl. intros x y. unfold window. bool_lia.
Qed.

Lemma Line_painted (procs length : Z) (p : RGBA) :
  painted f (window 0 length c d) p (parallel.Line procs length fn p).
Proof.
  unfold parallel.Line.
  destruct ((procs <=? 1) || (length `quot` procs <=? procs)) eqn:E.
  - apply fn_paints.
  - apply orb_false_iff in E as [E1 E2]. apply Z.leb_gt in E1, E2.
    apply Line_loop_painted; lia.
Qed.

End Line.

End Painting.

Section GrayScale.
Import image native.

Lemma NewRGBA_cases (r : Rectangle) :
  (0 <= mul3NonNeg 4 (Dx r) (Dy r) /\ NewRGBA r = Done (mkImg ∅ r)) \/
  (mul3NonNeg 4 (Dx r) (Dy r) < 0 /\
   NewRGBA r = Panic "image: NewRGBA Rectangle has huge or negative dimensions").
Proof.
  unfold NewRGBA. destruct (Z.ltb_spec (mul3NonNeg 4 (Dx r) (Dy r)) 0); [right|left]; auto.
Qed.

Lemma In_window (x y : Z) (r : Rectangle) :
  In (x, y) r = window (Y (Min r)) (Y (Max r)) (X (Min r)) (X (Max r)) x y.
Proof.
  unfold In, window. simpl.
  destruct (X (Min r) <=? x), (x <? X (Max r)), (Y (Min r) <=? y), (y <? Y (Max r));
    reflexivity.
Qed.

Lemma AsRGBA_spec (img : Image) :
  match clone.AsRGBA img with
  | Done src =>
      0 <= mul3NonNeg 4 (Dx (Bounds img)) (Dy (Bounds img)) /\
      Rect_ src = Bounds img /\
      forall x y, Pix src !! (x, y) =
        if In (x, y) (Bounds img) then Some (color.RGBAModel_Convert (At img x y)) else None
  | Panic _ => mul3NonNeg 4 (Dx (Bounds img)) (Dy (Bounds img)) < 0
  end.
Proof.
  unfold clone.AsRGBA.
  destruct (NewRGBA_cases (Bounds img)) as [[H ->]|[H ->]]; simpl; [|exact H].
  split; [exact H|].
  destruct (painted_rows (At img) (Y (Min (Bounds img))) (Y (Max (Bounds img)))
              (X (Min (Bounds img))) (X (Max (Bounds img))) (mkImg ∅ (Bounds img)))
    as [Hr Hp].
  split; [exact Hr|]. intros x y. rewrite Hp. simpl.
  rewrite <- In_window, andb_diag, lookup_empty. reflexivity.
Qed.

Lemma RGBAAt_lookup (p : RGBA) (x y : Z) (c : color.RGBA) :
  In (x, y) (Rect_ p) = true -> Pix p !! (x, y) = Some c -> RGBAAt p x y = c.
Proof. intros Hin Hl. unfold RGBAAt. rewrite Hin, Hl. reflexivity. Qed.

(** What [grayScale] returns: it fails only where [NewRGBA] refuses the
    bounds; on empty bounds it returns the empty image; otherwise an image
    of the same bounds whose pixel at [(x, y)], for [x] and [y] below the
    width and the height, is the gray of the source pixel there. *)
Lemma grayScale_spec (procs : Z) (img : Image) :
  match grayScale procs img with
  | Done r' =>
      exists r, r' = ofRGBA r /\
      0 <= mul3NonNeg 4 (Dx (Bounds img)) (Dy (Bounds img)) /\
      if Empty (Bounds img) then r = emptyRGBA
      else
        Rect_ r = Bounds img /\
        forall x y, Pix r !! (x, y) =
          if In (x, y) (Bounds img) && window 0 (Dy (Bounds img)) 0 (Dx (Bounds img)) x y
          then Some (grayPix (color.RGBAModel_Convert (At img x y)))
          else None
  | Panic _ => mul3NonNeg 4 (Dx (Bounds img)) (Dy (Bounds img)) < 0
  end.
Proof.
  unfold grayScale.
  pose proof (AsRGBA_spec img) as Hs.
  destruct (clone.AsRGBA img) as [src|msg]; simpl; [|exact Hs].
  destruct Hs as (Hm & Hr & Hp). rewrite Hr.
  destruct (Empty (Bounds img)) eqn:He; simpl.
  { exists emptyRGBA. auto. }
  destruct (NewRGBA_cases (Bounds img)) as [[_ ->]|[H _]]; [simpl|lia].
  eexists. split; [reflexivity|]. split; [exact Hm|].
  set (f := fun x y => color.ofRGBA (grayPix (RGBAAt src x y))).
  destruct (Line_painted f _ 0 (Dx (Bounds img))
              (fun a b p => painted_rows f a b 0 (Dx (Bounds img)) p)
              procs (Dy (Bounds img)) (mkImg ∅ (Bounds img))) as [Hr' Hp'].
  split; [exact Hr'|]. intros x y.
  etransitivity; [apply Hp'|]. simpl.
  destruct (In (x, y) (Bounds img)) eqn:Hin; simpl; [|apply lookup_empty].
  destruct (window 0 (Dy (Bounds img)) 0 (Dx (Bounds img)) x y); [|apply lookup_empty].
  unfold f. simpl. do 2 f_equal.
  apply RGBAAt_lookup; [rewrite Hr; exact Hin|]. rewrite Hp, Hin. reflexivity.
Qed.

Lemma grayPix_idem (c : color.RGBA) : grayPix (grayPix c) = grayPix c.
Proof.
  destruct c as [r g b a]. unfold grayPix. simpl color.A.
  generalize (color.Y (color.GrayModel_Convert (color.ofRGBA (color.mkRGBA r g b a)))).
  intros y. f_equal; destruct y; reflexivity.
Qed.


Lemma RGBA_eq (p q : RGBA) :
  Rect_ p = Rect_ q -> (forall x y, Pix p !! (x, y) = Pix q !! (x, y)) -> p = q.
Proof.
  destruct p as [pp pr], q as [qp qr]. simpl. intros -> H. f_equal.
  apply map_eq. intros [x y]. apply H.
Qed.

(** A second conversion of a converted image returns it as it is. *)
Lemma grayScale_again (procs procs' : Z) (img : Image) :
  (grayScale procs img ≫= grayScale procs') = grayScale procs img.
Proof.
  pose proof (grayScale_spec procs img) as H1.
  destruct (grayScale procs img) as [r'|msg]; [|reflexivity].
  destruct H1 as (r & -> & Hm & H1). simpl.
  change (Outcome_bind _ _ (grayScale procs') (Done (ofRGBA r)))
    with (grayScale procs' (ofRGBA r)).
  pose proof (grayScale_spec procs' (ofRGBA r)) as H2. simpl Bounds in H2.
  destruct (Empty (Bounds img)) eqn:He.
  - subst r. destruct (grayScale procs' (ofRGBA emptyRGBA)) as [r2'|msg].
    + destruct H2 as (r2 & -> & _ & H2). simpl in H2. subst r2. reflexivity.
    + exfalso. vm_compute in H2. discriminate.
  - destruct H1 as [Hr Hp]. rewrite Hr, He in H2.
    destruct (grayScale procs' (ofRGBA r)) as [r2'|msg]; [|lia].
    destruct H2 as (r2 & -> & _ & Hr2 & Hp2). do 2 f_equal.
    apply RGBA_eq; [congruence|]. intros x y. rewrite Hp2, Hp.
    destruct (In (x, y) (Bounds img) && window 0 (Dy (Bounds img)) 0 (Dx (Bounds img)) x y)
      eqn:E; [|reflexivity].
    f_equal. simpl. unfold RGBAAt. rewrite Hr, Hp, E.
    apply andb_true_iff in E as [-> _]. simpl. apply grayPix_idem.
Qed.


(** C10: on an image as a decoder returns it, [grayScale] returns the
    empty RGBA image when the bounds are empty, and returns an RGBA image
    whenever a buffer of four bytes a pixel fits an [int]: it does not
    fail. *)
Theorem grayScale_total (procs : Z) (img : Image) :
  decodedBounds (Bounds img) ->
  (Empty (Bounds img) = true -> grayScale procs img = Done (ofRGBA emptyRGBA)) /\
  (4 * Dx (Bounds img) * Dy (Bounds img) < 2 ^ 63 ->
   exists r, grayScale procs img = Done (ofRGBA r)).
Proof.
  intros ((Hx & Hy) & Hw & Hh).
  pose proof (grayScale_spec procs img) as H.
  assert (Hd : 0 <= Dx (Bounds img) /\ 0 <= Dy (Bounds img)) by (unfold Dx, Dy; lia).
  change (2 ^ 31) with 2147483648 in *.
  split.
  - intros He.
    assert (Hz : Dx (Bounds img) * Dy (Bounds img) = 0).
    { unfold Empty in He. apply orb_true_iff in He. unfold Dx, Dy in *.
      rewrite !Z.leb_le in He. nia. }
    destruct (grayScale procs img) as [r'|msg].
    + destruct H as (r & -> & _ & H). rewrite He in H. subst r. reflexivity.
    + exfalso. unfold mul3NonNeg in H.
      replace (4 * Dx (Bounds img) * Dy (Bounds img)) with 0 in H by lia.
      change (2 ^ 64) with 18446744073709551616 in H.
      repeat match type of H with
      | context [if ?b then _ else _] => destruct b eqn:?
      end; rewrite ?orb_true_iff, ?Z.ltb_lt, ?Z.leb_le in *; lia.
  - intros Hf. change (2 ^ 63) with 9223372036854775808 in *.
    destruct (grayScale procs img) as [r'|msg].
    + destruct H as (r & -> & _). eauto.
    + exfalso. unfold mul3NonNeg in H.
      change (2 ^ 64) with 18446744073709551616 in H.
      change (2 ^ 63) with 9223372036854775808 in H.
      repeat match type of H with
      | context [if ?b then _ else _] => destruct b eqn:?
      end; rewrite ?orb_true_iff, ?orb_false_iff, ?Z.ltb_lt, ?Z.ltb_ge, ?Z.leb_le, ?Z.leb_gt in *; nia.
Qed.

End GrayScale.

Example grayScale_veiled :
  exists r, native.grayScale 4 sample.veiled = Done (image.ofRGBA r) /\
    image.RGBAAt r 1 0 = color.mkRGBA Byte.x12 Byte.x12 Byte.x12 Byte.x80 /\
    image.RGBAAt r 0 1 = color.mkRGBA Byte.x12 Byte.x12 Byte.x12 Byte.xff.
Proof. eexists. vm_compute. repeat split. Qed.

Lemma grayScale_total_witness :
  native.grayScale 4 sample.blank = Done (image.ofRGBA image.emptyRGBA) /\
  exists r, native.grayScale 4 sample.photo = Done (image.ofRGBA r).
Proof.
  assert (Hb : decodedBounds (image.Bounds sample.blank))
    by (vm_compute; repeat split; discriminate).
  assert (Hp : decodedBounds (image.Bounds sample.photo))
    by (vm_compute; repeat split; discriminate).
  split.
  - apply (grayScale_total 4 sample.blank Hb). reflexivity.
  - apply (grayScale_total 4 sample.photo Hp). reflexivity.
Defined.

(** ** float64: halving a natural number *)

Section Float64.
Import float64.

Lemma digits2_pos_spec (w : positive) :
  2 ^ (Zpos (digits2_pos w) - 1) <= Zpos w < 2 ^ Zpos (digits2_pos w).
Proof.
  induction w as [w IH|w IH|]; simpl digits2_pos.
  - rewrite Pos2Z.inj_succ.
    replace (Z.succ (Zpos (digits2_pos w)) - 1) with (Z.succ (Zpos (digits2_pos w) - 1)) by lia.
    rewrite !Z.pow_succ_r by lia. lia.
  - rewrite Pos2Z.inj_succ.
    replace (Z.succ (Zpos (digits2_pos w)) - 1) with (Z.succ (Zpos (digits2_pos w) - 1)) by lia.
    rewrite !Z.pow_succ_r by lia. lia.
  - simpl. lia.
Qed.

Lemma iter_xO_spec (w n : positive) :
  Zpos (Pos.iter xO w n) = Zpos w * 2 ^ Zpos n /\
  digits2_pos (Pos.iter xO w n) = (digits2_pos w + n)%positive.
Proof.
  induction n as [|n IH] using Pos.peano_ind.
  - simpl. split; lia.
  - rewrite Pos.iter_succ. destruct IH as [IH1 IH2]. split.
    + rewrite Pos2Z.inj_xO, IH1, Pos2Z.inj_succ, Z.pow_succ_r by lia. lia.
    + simpl digits2_pos. rewrite IH2. lia.
Qed.

Lemma fexp_normal (e : Z) : -1021 <= e -> fexp prec emax e = e - 53.
Proof. unfold fexp, emin, prec, emax. lia. Qed.

(** A mantissa of 53 digits with an exponent in range is kept as it is. *)
Lemma binary_round_aux_exact (m : positive) (e : Z) :
  Zpos (digits2_pos m) = 53 -> -1074 <= e <= 971 ->
  binary_round_aux prec emax false (Zpos m) e loc_Exact = S754_finite false m e.
Proof.
  intros Hd He. unfold binary_round_aux, shr_fexp. simpl Zdigits2. rewrite Hd.
  rewrite fexp_normal by lia.
  replace (53 + e - 53 - e) with 0 by lia. simpl.
  rewrite Hd. rewrite fexp_normal by lia.
  replace (53 + e - 53 - e) with 0 by lia. simpl.
  replace (e <=? emax - prec) with true; [reflexivity|].
  symmetry. apply Z.leb_le. unfold emax, prec. lia.
Qed.

(** [float64(n)] for a positive [n] below 2^53 is exact: the mantissa is
    [n] shifted to 53 digits. *)
Lemma of_int_pos (w : positive) :
  Zpos w < 2 ^ 53 ->
  exists m e, of_int (Zpos w) = S754_finite false m e /\
              Zpos (digits2_pos m) = 53 /\ -52 <= e <= 0 /\
              Zpos m = Zpos w * 2 ^ (- e).
Proof.
  intros Hw. pose proof (digits2_pos_spec w) as Hd.
  assert (Hd53 : Zpos (digits2_pos w) <= 53).
  { destruct (Z_le_gt_dec (Zpos (digits2_pos w)) 53) as [|Hgt]; [assumption|].
    exfalso. assert (2 ^ 53 <= 2 ^ (Zpos (digits2_pos w) - 1)) by (apply Z.pow_le_mono_r; lia).
    lia. }
  unfold of_int, binary_normalize, binary_round, shl_align.
  rewrite fexp_normal by lia.
  destruct (Z.eq_dec (Zpos (digits2_pos w)) 53) as [E|E].
  - rewrite E. change (53 + 0 - 53 - 0) with 0. cbv iota beta.
    exists w, 0. rewrite binary_round_aux_exact by (auto; lia).
    repeat split; auto; try lia.
  - remember (Zpos (digits2_pos w) + 0 - 53 - 0) as k eqn:Ek.
    destruct k as [|k|k]; [lia|lia|].
    destruct (iter_xO_spec w k) as [Hv Hdig].
    exists (Pos.iter xO w k), (Zpos (digits2_pos w) + 0 - 53).
    assert (Hk : Zpos k = 53 - Zpos (digits2_pos w)) by lia.
    rewrite binary_round_aux_exact.
    + repeat split; try lia.
      rewrite Hv. f_equal. f_equal. lia.
    + rewrite Hdig. lia.
    + lia.
Qed.


Lemma div_eucl_exact (a b q : Z) : 0 < b -> a = q * b -> Z.div_eucl a b = (q, 0).
Proof.
  intros Hb ->.
  assert (H : Z.div_eucl (q * b) b = ((q * b) / b, (q * b) mod b))
    by (unfold Z.div, Z.modulo; destruct (Z.div_eucl (q * b) b); reflexivity).
  rewrite H, Z.div_mul, Z.mod_mul by lia. reflexivity.
Qed.

(** Halving a number of 53 digits only lowers the exponent. *)
Lemma div_two_exact (m : positive) (e : Z) :
  Zpos (digits2_pos m) = 53 -> -52 <= e <= 0 ->
  div (S754_finite false m e) two = S754_finite false m (e - 1).
Proof.
  intros Hd He. unfold div, two, SFdiv, SFdiv_core_binary.
  change (Zdigits2 (Z.pos m)) with (Z.pos (digits2_pos m)). rewrite Hd.
  change (Zdigits2 4503599627370496) with 53.
  replace (53 + e - (53 + -51)) with (e + 51) by lia.
  rewrite fexp_normal by lia.
  replace (Z.min (e + 51 - 53) (e - -51)) with (e - 2) by lia.
  replace (e - -51 - (e - 2)) with 53 by lia.
  cbv iota beta.
  rewrite (div_eucl_exact _ _ (Zpos (xO m))).
  2: lia.
  2:{ rewrite Z.shiftl_mul_pow2 by lia. change (2 ^ 53) with 9007199254740992. lia. }
  change (new_location 4503599627370496 0) with loc_Exact.
  unfold binary_round_aux, shr_fexp.
  change (Zdigits2 (Z.pos m~0)) with (Z.pos (Pos.succ (digits2_pos m))).
  rewrite Pos2Z.inj_succ, Hd. change (Z.succ 53) with 54.
  rewrite fexp_normal by lia.
  replace (54 + (e - 2) - 53 - (e - 2)) with 1 by lia.
  simpl. rewrite Hd. rewrite fexp_normal by lia.
  replace (53 + (e - 2 + 1) - 53 - (e - 2 + 1)) with 0 by lia. simpl.
  replace (e - 2 + 1 <=? emax - prec) with true
    by (symmetry; apply Z.leb_le; unfold emax, prec; lia).
  f_equal. lia.
Qed.

(** [int(float64(n) / 2.0)] is [n / 2] for a natural number below 2^53. *)
Lemma half_exact (n : Z) :
  0 <= n < 2 ^ 53 -> to_int (div (of_int n) two) = n / 2.
Proof.
  intros Hn. destruct n as [|w|w]; [reflexivity| |lia].
  destruct (of_int_pos w ltac:(lia)) as (m & e & -> & Hd & He & Hv).
  rewrite div_two_exact by assumption.
  unfold to_int.
  replace (0 <=? e - 1) with false by (symmetry; apply Z.leb_gt; lia).
  rewrite Hv. replace (- (e - 1)) with (- e + 1) by lia.
  rewrite Z.pow_add_r by lia. change (2 ^ 1) with 2.
  rewrite (Z.mul_comm (2 ^ (- e)) 2).
  rewrite Z.div_mul_cancel_r by (try lia; apply Z.pow_nonzero; lia).
  change (2 ^ 53) with 9007199254740992 in Hn.
  assert (0 <= Zpos w / 2 < 9007199254740992) as Hq.
  { split; [apply Z.div_pos; lia | apply Z.div_lt_upper_bound; lia]. }
  destruct ((strconv.MinInt <=? Z.pos w / 2) && (Z.pos w / 2 <=? strconv.MaxInt)) eqn:E;
    [reflexivity|].
  exfalso. apply andb_false_iff in E. rewrite !Z.leb_gt in E.
  unfold strconv.MinInt, strconv.MaxInt in E.
  change (2 ^ 63) with 9223372036854775808 in E. lia.
Qed.

End Float64.

(** ** The runs of the native processor *)

Section Steps.
Import image native.
Variable env : Env.

Lemma Sys_eq (s : Sys) (n n' : Z) r r' w w' :
  n = n' -> r = r' -> w = w' ->
  {| now := n; recorded := r; steps := w |} = {| now := n'; recorded := r'; steps := w' |}.
Proof. intros -> -> ->. reflexivity. Qed.

Lemma decode_eq (data : bytes) (s : Sys) :
  decode env data s =
  (Done (image_Decode env data),
   took env [WorkDecode data]
        (match image_Decode env data with
         | inl _ => [duration decodeDurationKey (cost env (WorkDecode data))]
         | inr _ => []
         end) s).
Proof.
  unfold decode, bind, ret, work, durationMetric, time.Now, time.Since, metrics_Update,
    bind, ret, took, costs, duration. simpl.
  destruct (image_Decode env data); simpl; f_equal; apply (Sys_eq s); simpl;
    rewrite ?app_nil_r; try reflexivity; try lia.
  do 2 f_equal. f_equal. lia.
Qed.

Lemma encode_eq (img : Image) (format : string) (s : Sys) :
  encode env img format s =
  (Done (encoded env img format),
   took env (encodeSteps img format)
        [duration encodeDurationKey (costs env (encodeSteps img format))] s).
Proof.
  unfold encode, encoded, encodeSteps, bind, ret, work, durationMetric, time.Now,
    time.Since, metrics_Update, bind, ret, took, costs, duration, jpeg.Encode. simpl.
  destruct (String.eqb format pngType) eqn:Ef; simpl.
  - destruct (isOpaque img) eqn:Eo; simpl.
    + destruct (jpeg_encode env jpeg.DefaultQuality img).
      f_equal. apply (Sys_eq s); simpl; rewrite <- ?app_assoc; try reflexivity; try lia.
      do 2 f_equal. f_equal. lia.
    + rewrite Ef. simpl. destruct (png_Encode env png.BestCompression img).
      f_equal. apply (Sys_eq s); simpl; rewrite <- ?app_assoc; try reflexivity; try lia.
      do 2 f_equal. f_equal. lia.
  - rewrite Ef. simpl. destruct (jpeg_encode env jpeg.DefaultQuality img).
    f_equal. apply (Sys_eq s); simpl; try reflexivity; try lia.
    do 2 f_equal. f_equal. lia.
Qed.


Lemma costs_app (ws1 ws2 : list Work) : costs env (ws1 ++ ws2) = costs env ws1 + costs env ws2.
Proof. induction ws1 as [|w ws1 IH]; simpl; [reflexivity | rewrite IH; lia]. Qed.

Lemma took_took ws1 ms1 ws2 ms2 (s : Sys) :
  took env ws2 ms2 (took env ws1 ms1 s) = took env (ws1 ++ ws2) (ms1 ++ ms2) s.
Proof.
  unfold took. simpl. apply (Sys_eq s); rewrite ?app_assoc, ?costs_app; auto; lia.
Qed.

Lemma bind_Done {A B} (m : Go A) (k : A -> Go B) (s s' : Sys) (a : A) :
  m s = (Done a, s') -> bind m k s = k a s'.
Proof. intros H. unfold bind. rewrite H. reflexivity. Qed.

Lemma bind_Panic {A B} (m : Go A) (k : A -> Go B) (s s' : Sys) (msg : string) :
  m s = (Panic msg, s') -> bind m k s = (Panic msg, s').
Proof. intros H. unfold bind. rewrite H. reflexivity. Qed.

Lemma work_eq (w : Work) (s : Sys) : work env w s = (Done tt, took env [w] [] s).
Proof.
  unfold work, took, costs. simpl. f_equal. apply (Sys_eq s); rewrite ?app_nil_r; auto; lia.
Qed.

Lemma durationMetric_eq (name : string) (t : Z) (s : Sys) :
  durationMetric name t s = (Done tt, took env [] [duration name (now s - t)] s).
Proof.
  unfold durationMetric, bind, time.Since, metrics_Update, took, costs, duration. simpl.
  f_equal. apply (Sys_eq s); rewrite ?app_nil_r; auto; lia.
Qed.

Lemma Now_eq (s : Sys) : time.Now s = (Done (now s), s).
Proof. reflexivity. Qed.

Lemma Watermark_eq (base overlay : bytes) (opacity : Byte.byte) (s : Sys)
      (baseImg overlayImg : Image) (f fo : string) (ov : RGBA) :
  image_Decode env base = inl (baseImg, f) ->
  image_Decode env overlay = inl (overlayImg, fo) ->
  transform.Resize env overlayImg (overlayWidth baseImg) (overlayHeight baseImg overlayImg)
    = Done ov ->
  isDrawImage baseImg = true ->
  let drawn := draw_DrawMask env baseImg (overlayRect baseImg ov) (ofRGBA ov) ZP opacity ZP in
  let resize := WorkResize overlayImg (overlayWidth baseImg) (overlayHeight baseImg overlayImg) in
  let draw := WorkDrawMask baseImg (overlayRect baseImg ov) (ofRGBA ov) ZP opacity ZP in
  Watermark env base overlay opacity s =
  (Done (encoded env drawn f),
   took env ([WorkDecode base; WorkDecode overlay; resize; draw] ++ encodeSteps drawn f)
        [duration decodeDurationKey (cost env (WorkDecode base));
         duration decodeDurationKey (cost env (WorkDecode overlay));
         duration watermarkDurationKey (cost env resize + cost env draw);
         duration encodeDurationKey (costs env (encodeSteps drawn f))] s).
Proof.
  intros Hb Ho Hr Hd drawn resize draw. unfold Watermark.
  erewrite bind_Done by apply decode_eq. rewrite Hb.
  erewrite bind_Done by apply decode_eq. rewrite Ho.
  erewrite bind_Done by apply Now_eq.
  erewrite bind_Done by apply work_eq.
  fold (overlayWidth baseImg) (overlayHeight baseImg overlayImg).
  erewrite bind_Done by (unfold liftO; rewrite Hr; reflexivity).
  rewrite Hd.
  erewrite bind_Done by reflexivity.
  erewrite bind_Done by apply work_eq.
  erewrite bind_Done by apply durationMetric_eq.
  rewrite encode_eq. rewrite !took_took. simpl app.
  fold (overlayRect baseImg ov). fold drawn.
  f_equal. f_equal. simpl. unfold duration. repeat f_equal. unfold costs. simpl.
  fold resize. fold draw. lia.
Qed.


Lemma names_took {A} (a : Outcome A) ws ms (s : Sys) :
  names s (a, took env ws ms s) = map metrics.Name ms.
Proof.
  unfold names, took. simpl. rewrite drop_app_length. reflexivity.
Qed.

Lemma liftO_eq {A} (o : Outcome A) (s : Sys) : liftO o s = (o, s).
Proof. reflexivity. Qed.

Lemma not_returns_Panic {A} (msg : string) (s : Sys) : ~ returns (@Panic A msg, s).
Proof. intros [a H]. discriminate. Qed.

Lemma Crop_names (input : bytes) (w h : Z) (p : processor.CropPoint) (s : Sys) :
  decodes env input -> returns (Crop env input w h p s) ->
  names s (Crop env input w h p s) = [decodeDurationKey; encodeDurationKey].
Proof.
  intros (img & f & Hd). unfold Crop.
  erewrite bind_Done by apply decode_eq. rewrite Hd.
  destruct (getResizeWidthAndHeightForCrop env w h (Dx (Bounds img)) (Dy (Bounds img)))
    as [w' h'].
  erewrite bind_Done by apply work_eq.
  destruct (transform.Resize env img w' h') as [r1|msg] eqn:Er.
  2:{ erewrite bind_Panic by apply liftO_eq. intros H. destruct (not_returns_Panic _ _ H). }
  erewrite bind_Done by apply liftO_eq.
  destruct (getStartingPointForCrop env w' h' w h p) as [x0 y0].
  erewrite bind_Done by apply work_eq.
  destruct (clone.AsRGBA (ofRGBA r1)) as [r2|msg] eqn:Ea.
  2:{ erewrite bind_Panic by apply liftO_eq. intros H. destruct (not_returns_Panic _ _ H). }
  erewrite bind_Done by apply liftO_eq.
  intros _. rewrite encode_eq, !took_took, names_took. reflexivity.
Qed.

Lemma Resize_names (input : bytes) (w h : Z) (s : Sys) :
  decodes env input -> returns (Resize env input w h s) ->
  names s (Resize env input w h s) = [decodeDurationKey; encodeDurationKey].
Proof.
  intros (img & f & Hd). unfold Resize.
  erewrite bind_Done by apply decode_eq. rewrite Hd.
  destruct (getResizeWidthAndHeight env w h (Dx (Bounds img)) (Dy (Bounds img))) as [w' h'].
  destruct (negb (w' =? Dx (Bounds img)) || negb (h' =? Dy (Bounds img))).
  - destruct (transform.Resize env img w' h') as [r1|msg] eqn:Er.
    + erewrite (bind_Done (bind _ _)).
      2:{ erewrite bind_Done by apply work_eq.
          erewrite bind_Done by apply liftO_eq. reflexivity. }
      intros _. rewrite encode_eq, !took_took, names_took. reflexivity.
    + erewrite (bind_Panic (bind _ _)).
      2:{ erewrite bind_Done by apply work_eq.
          erewrite bind_Panic by apply liftO_eq. reflexivity. }
      intros H. destruct (not_returns_Panic _ _ H).
  - erewrite bind_Done by reflexivity.
    intros _. rewrite encode_eq, !took_took, names_took. reflexivity.
Qed.


Lemma GrayScale_names (input : bytes) (s : Sys) :
  decodes env input -> returns (GrayScale env input s) ->
  names s (GrayScale env input s) = [decodeDurationKey; encodeDurationKey].
Proof.
  intros (img & f & Hd). unfold GrayScale.
  erewrite bind_Done by apply decode_eq. rewrite Hd.
  erewrite bind_Done by apply work_eq.
  destruct (grayScale (GOMAXPROCS env) img) as [g|msg].
  2:{ erewrite bind_Panic by apply liftO_eq. intros H. destruct (not_returns_Panic _ _ H). }
  erewrite bind_Done by apply liftO_eq.
  intros _. rewrite encode_eq, !took_took, names_took. reflexivity.
Qed.

Lemma Watermark_panic_eq (base overlay : bytes) (opacity : Byte.byte) (s : Sys)
      (baseImg overlayImg : Image) (f fo : string) :
  image_Decode env base = inl (baseImg, f) ->
  image_Decode env overlay = inl (overlayImg, fo) ->
  let resize := WorkResize overlayImg (overlayWidth baseImg) (overlayHeight baseImg overlayImg) in
  let s' := took env [WorkDecode base; WorkDecode overlay; resize]
                 [duration decodeDurationKey (cost env (WorkDecode base));
                  duration decodeDurationKey (cost env (WorkDecode overlay))] s in
  match transform.Resize env overlayImg (overlayWidth baseImg)
                         (overlayHeight baseImg overlayImg) with
  | Panic msg => Watermark env base overlay opacity s = (Panic msg, s')
  | Done ov =>
      isDrawImage baseImg = false ->
      Watermark env base overlay opacity s =
      (Panic ("interface conversion: image.Image is " ++ typeName baseImg
              ++ ", not draw.Image: missing method Set"), s')
  end.
Proof.
  intros Hb Ho resize s'. unfold Watermark.
  erewrite bind_Done by apply decode_eq. rewrite Hb.
  erewrite bind_Done by apply decode_eq. rewrite Ho.
  erewrite bind_Done by apply Now_eq.
  erewrite bind_Done by apply work_eq.
  fold (overlayWidth baseImg) (overlayHeight baseImg overlayImg).
  rewrite !took_took. simpl app. fold resize. fold s'.
  destruct (transform.Resize env overlayImg (overlayWidth baseImg)
              (overlayHeight baseImg overlayImg)) as [ov|msg].
  - intros Hd. erewrite bind_Done by apply liftO_eq. rewrite Hd.
    erewrite bind_Panic by apply liftO_eq. reflexivity.
  - erewrite bind_Panic by apply liftO_eq. reflexivity.
Qed.

Lemma Watermark_names (base overlay : bytes) (opacity : Byte.byte) (s : Sys) :
  decodes env base -> decodes env overlay -> returns (Watermark env base overlay opacity s) ->
  names s (Watermark env base overlay opacity s)
    = [decodeDurationKey; decodeDurationKey; watermarkDurationKey; encodeDurationKey].
Proof.
  intros (baseImg & f & Hb) (overlayImg & fo & Ho).
  pose proof (Watermark_panic_eq base overlay opacity s baseImg overlayImg f fo Hb Ho) as Hp.
  pose proof (Watermark_eq base overlay opacity s baseImg overlayImg f fo) as He.
  cbv zeta in Hp, He.
  destruct (transform.Resize env overlayImg (overlayWidth baseImg)
              (overlayHeight baseImg overlayImg)) as [ov|msg].
  - destruct (isDrawImage baseImg) eqn:Hd.
    + rewrite (He ov Hb Ho eq_refl eq_refl). intros _. apply names_took.
    + rewrite (Hp eq_refl). intros H. destruct (not_returns_Panic _ _ H).
  - rewrite Hp. intros H. destruct (not_returns_Panic _ _ H).
Qed.

(** What [GrayScale] does on bytes that decode. *)
Lemma GrayScale_eq (input : bytes) (s : Sys) (img g : Image) (f : string) :
  image_Decode env input = inl (img, f) ->
  grayScale (GOMAXPROCS env) img = Done g ->
  GrayScale env input s =
  (Done (encoded env g f),
   took env ([WorkDecode input; WorkGrayScale img] ++ encodeSteps g f)
        [duration decodeDurationKey (cost env (WorkDecode input));
         duration encodeDurationKey (costs env (encodeSteps g f))] s).
Proof.
  intros Hd Hg. unfold GrayScale.
  erewrite bind_Done by apply decode_eq. rewrite Hd.
  erewrite bind_Done by apply work_eq.
  erewrite bind_Done by (rewrite liftO_eq, Hg; reflexivity).
  rewrite encode_eq, !took_took. reflexivity.
Qed.


End Steps.

Section StepsPkg.
Import image native_pkg.
Variable env : Env.

Lemma pkg_Crop_names (input : bytes) (w h : Z) (p : processor.CropPoint) (s : Sys) :
  decodes env input -> returns (Crop env input w h p s) ->
  names s (Crop env input w h p s)
    = [native.decodeDurationKey; cropDurationKey; native.encodeDurationKey].
Proof.
  intros (img & f & Hd). unfold Crop, decode, encode.
  erewrite bind_Done by apply decode_eq. rewrite Hd.
  destruct (getResizeWidthAndHeightForCrop env w h (Dx (Bounds img)) (Dy (Bounds img)))
    as [w' h'].
  erewrite bind_Done by apply Now_eq.
  erewrite bind_Done by apply work_eq.
  destruct (transform.Resize env img w' h') as [r1|msg] eqn:Er.
  2:{ erewrite bind_Panic by apply liftO_eq. intros H. destruct (not_returns_Panic _ _ H). }
  erewrite bind_Done by apply liftO_eq.
  destruct (getStartingPointForCrop env w' h' w h p) as [x0 y0].
  erewrite bind_Done by apply work_eq.
  destruct (clone.AsRGBA (ofRGBA r1)) as [r2|msg] eqn:Ea.
  2:{ erewrite bind_Panic by apply liftO_eq. intros H. destruct (not_returns_Panic _ _ H). }
  erewrite bind_Done by apply liftO_eq.
  erewrite bind_Done by apply durationMetric_eq.
  intros _. rewrite encode_eq, !took_took, names_took. reflexivity.
Qed.

Lemma pkg_Resize_names (input : bytes) (w h : Z) (s : Sys) :
  decodes env input -> returns (Resize env input w h s) ->
  exists img f, image_Decode env input = inl (img, f) /\
  names s (Resize env input w h s)
    = if negb (fst (getResizeWidthAndHeight env w h (Dx (Bounds img)) (Dy (Bounds img)))
               =? Dx (Bounds img))
         || negb (snd (getResizeWidthAndHeight env w h (Dx (Bounds img)) (Dy (Bounds img)))
                  =? Dy (Bounds img))
      then [native.decodeDurationKey; resizeDurationKey; native.encodeDurationKey]
      else [native.decodeDurationKey; native.encodeDurationKey].
Proof.
  intros (img & f & Hd) Hr. exists img, f. split; [exact Hd|]. revert Hr.
  unfold Resize, decode, encode.
  erewrite bind_Done by apply decode_eq. rewrite Hd.
  destruct (getResizeWidthAndHeight env w h (Dx (Bounds img)) (Dy (Bounds img))) as [w' h'].
  simpl fst. simpl snd.
  destruct (negb (w' =? Dx (Bounds img)) || negb (h' =? Dy (Bounds img))).
  - destruct (transform.Resize env img w' h') as [r1|msg] eqn:Er.
    + erewrite (bind_Done (bind _ _)).
      2:{ erewrite bind_Done by apply Now_eq.
          erewrite bind_Done by apply work_eq.
          erewrite bind_Done by apply liftO_eq.
          erewrite bind_Done by apply durationMetric_eq. reflexivity. }
      intros _. rewrite encode_eq, !took_took, names_took. reflexivity.
    + erewrite (bind_Panic (bind _ _)).
      2:{ erewrite bind_Done by apply Now_eq.
          erewrite bind_Done by apply work_eq.
          erewrite bind_Panic by apply liftO_eq. reflexivity. }
      intros H. destruct (not_returns_Panic _ _ H).
  - erewrite bind_Done by reflexivity.
    intros _. rewrite encode_eq, !took_took, names_took. reflexivity.
Qed.

Lemma pkg_GrayScale_names (input : bytes) (s : Sys) :
  decodes env input ->
  names s (GrayScale env input s)
    = [native.decodeDurationKey; grayScaleDurationKey; native.encodeDurationKey].
Proof.
  intros (img & f & Hd). unfold GrayScale, decode, encode.
  erewrite bind_Done by apply decode_eq. rewrite Hd.
  erewrite bind_Done by apply Now_eq.
  erewrite bind_Done by apply work_eq.
  erewrite bind_Done by apply durationMetric_eq.
  rewrite encode_eq, !took_took, names_took. reflexivity.
Qed.

End StepsPkg.


(** ** Watermark *)


Section Watermark.
Import image native.
Variable env : Env.

Lemma Resize_Rect (img : Image) (w h : Z) (ov : RGBA) :
  transform.Resize env img w h = Done ov ->
  Rect_ ov = if (w <=? 0) || (h <=? 0) || Empty (Bounds img)
             then mkRectangle (0, 0) (0, 0)
             else mkRectangle (0, 0) (w, h).
Proof.
  unfold transform.Resize.
  destruct ((w <=? 0) || (h <=? 0) || Empty (Bounds img)) eqn:E.
  - intros [= <-]. reflexivity.
  - apply orb_false_iff in E as [E _]. apply orb_false_iff in E as [Ew Eh].
    apply Z.leb_gt in Ew, Eh.
    assert (HR : Rect 0 0 w h = mkRectangle (0, 0) (w, h)).
    { unfold Rect.
      replace (w <? 0) with false by (symmetry; apply Z.ltb_ge; lia).
      replace (h <? 0) with false by (symmetry; apply Z.ltb_ge; lia).
      reflexivity. }
    rewrite HR. unfold NewRGBA.
    destruct (mul3NonNeg 4 _ _ <? 0); simpl; [discriminate|].
    intros [= <-]. reflexivity.
Qed.

(** C8, amended.  When the base is of a type that can be drawn on, its
    width [W] is below 2^53 and the resize returns: [Watermark] asks for
    the overlay to be resized to the width [W / 2] and to the height [h]
    that the float64 product of half the width and the overlay's
    height-to-width ratio truncates to; the resized overlay has the origin
    as its corner and is [W / 2] by [h] when both are positive and the
    overlay is not empty, and has no width and no height otherwise; it is
    drawn on the base over the rectangle of its size whose origin is
    [((W - width) / 2, (H - height) / 2)], for its own width and height. *)
Theorem Watermark_composites (base overlay : bytes) (opacity : Byte.byte) (s : Sys)
        (baseImg overlayImg : Image) (f fo : string) (ov : RGBA) :
  image_Decode env base = inl (baseImg, f) ->
  image_Decode env overlay = inl (overlayImg, fo) ->
  isDrawImage baseImg = true ->
  transform.Resize env overlayImg (overlayWidth baseImg) (overlayHeight baseImg overlayImg)
    = Done ov ->
  0 <= Dx (Bounds baseImg) < 2 ^ 53 ->
  let W := Dx (Bounds baseImg) in
  let H := Dy (Bounds baseImg) in
  let h := overlayHeight baseImg overlayImg in
  let x := Z.quot (W - Dx (Rect_ ov)) 2 in
  let y := Z.quot (H - Dy (Rect_ ov)) 2 in
  Min (Rect_ ov) = (0, 0) /\
  (Dx (Rect_ ov), Dy (Rect_ ov))
    = (if (W / 2 <=? 0) || (h <=? 0) || Empty (Bounds overlayImg)
       then (0, 0) else (W / 2, h)) /\
  exists rest,
    steps (snd (Watermark env base overlay opacity s)) =
    steps s ++
    [WorkDecode base; WorkDecode overlay;
     WorkResize overlayImg (W / 2) h;
     WorkDrawMask baseImg (mkRectangle (x, y) (x + Dx (Rect_ ov), y + Dy (Rect_ ov)))
                  (ofRGBA ov) ZP opacity ZP]
    ++ rest.
Proof.
  intros Hb Ho Hd Hr HW W H h x y.
  assert (Hhalf : overlayWidth baseImg = W / 2) by (apply half_exact; exact HW).
  pose proof (Resize_Rect _ _ _ _ Hr) as HR. rewrite Hhalf in HR. fold h in HR.
  assert (HM : Min (Rect_ ov) = (0, 0)).
  { rewrite HR. destruct (_ || _); reflexivity. }
  split; [exact HM|].
  split.
  { rewrite HR. destruct (_ || _); unfold Dx, Dy; simpl; rewrite ?Z.sub_0_r; reflexivity. }
  assert (HO : overlayRect baseImg ov
               = mkRectangle (x, y) (x + Dx (Rect_ ov), y + Dy (Rect_ ov))).
  { unfold overlayRect, Add, Pt. fold W H x y.
    change (X (x, y)) with x. change (Y (x, y)) with y.
    unfold Dx, Dy. rewrite HM.
    change (X (0, 0)) with 0. change (Y (0, 0)) with 0.
    f_equal; f_equal; lia. }
  rewrite (Watermark_eq env base overlay opacity s baseImg overlayImg f fo ov Hb Ho Hr Hd).
  rewrite HO, Hhalf. fold h. eexists. unfold took. simpl steps. reflexivity.
Qed.

(** C9: when the base decodes to an image of a type without the method
    [Set], [Watermark] panics: nothing is returned to the caller, neither
    bytes nor an error.  The panic is that of the type assertion whenever
    the resize of the overlay returns. *)
Theorem Watermark_panics (base overlay : bytes) (opacity : Byte.byte) (s : Sys)
        (baseImg overlayImg : Image) (f fo : string) :
  image_Decode env base = inl (baseImg, f) ->
  image_Decode env overlay = inl (overlayImg, fo) ->
  isDrawImage baseImg = false ->
  exists msg,
    fst (Watermark env base overlay opacity s) = Panic msg /\
    (forall ov,
       transform.Resize env overlayImg (overlayWidth baseImg)
                        (overlayHeight baseImg overlayImg) = Done ov ->
       msg = ("interface conversion: image.Image is " ++ typeName baseImg
              ++ ", not draw.Image: missing method Set")%string).
Proof.
  intros Hb Ho Hd.
  pose proof (Watermark_panic_eq env base overlay opacity s baseImg overlayImg f fo Hb Ho) as Hp.
  cbv zeta in Hp.
  destruct (transform.Resize env overlayImg (overlayWidth baseImg)
              (overlayHeight baseImg overlayImg)) as [ov|msg].
  - rewrite (Hp Hd). eexists. split; [reflexivity|]. intros _ _. reflexivity.
  - rewrite Hp. exists msg. split; [reflexivity|]. intros ov [=].
Qed.

End Watermark.

Lemma Watermark_composites_witness :
  exists rest,
    steps (snd (native.Watermark sample.env [Byte.x04] [Byte.x05] Byte.x80 sample.start)) =
    [WorkDecode [Byte.x04]; WorkDecode [Byte.x05];
     WorkResize sample.badge 50 25;
     WorkDrawMask sample.base (image.mkRectangle (25, 37) (75, 62))
                  (image.ofRGBA (image.mkImg ∅ (image.mkRectangle (0, 0) (50, 25))))
                  image.ZP Byte.x80 image.ZP] ++ rest.
Proof.
  destruct (Watermark_composites sample.env [Byte.x04] [Byte.x05] Byte.x80 sample.start
              sample.base sample.badge "png" "png"
              (image.mkImg ∅ (image.mkRectangle (0, 0) (50, 25))))
    as (_ & _ & rest & H); try reflexivity; try (vm_compute; split; congruence).
  exists rest. exact H.
Defined.

(** C8, as the claim words it, fails: a 1000x1 overlay on a 100x100 base
    is to be resized to 50 by [int(50 * 0.001)], which is 0;
    [transform.Resize] then returns the empty image, and what is drawn on
    the base has width 0, not 50. *)
Lemma Watermark_ribbon_counterexample :
  image.Dx (image.Bounds sample.base) / 2 = 50 /\
  exists rest,
    steps (snd (native.Watermark sample.env [Byte.x04] [Byte.x06] Byte.x80 sample.start)) =
    [WorkDecode [Byte.x04]; WorkDecode [Byte.x06];
     WorkResize sample.ribbon 50 0;
     WorkDrawMask sample.base (image.mkRectangle (50, 50) (50, 50))
                  (image.ofRGBA image.emptyRGBA) image.ZP Byte.x80 image.ZP] ++ rest /\
    image.Dx (image.Rect_ image.emptyRGBA) = 0.
Proof.
  split; [reflexivity|]. eexists. split; [vm_compute; reflexivity | reflexivity].
Qed.

Lemma Watermark_panics_witness :
  fst (native.Watermark sample.env [Byte.x03] [Byte.x05] Byte.x80 sample.start)
    = Panic "interface conversion: image.Image is *image.YCbCr, not draw.Image: missing method Set".
Proof.
  destruct (Watermark_panics sample.env [Byte.x03] [Byte.x05] Byte.x80 sample.start
              sample.photo sample.badge "jpeg" "png" eq_refl eq_refl eq_refl)
    as (msg & Hm & Hov).
  rewrite Hm. f_equal.
  apply (Hov (image.mkImg ∅ (image.mkRectangle (0, 0) (2, 1)))).
  vm_compute. reflexivity.
Defined.

(** ** The metrics of the processor *)





(** * Further properties of the code *)

(** ** CleanInt: signs and round trips *)

Section Signs.
Import strconv.

Lemma digitsValue_nonneg (s : string) (v : Z) : spec.digitsValue s 0 = Some v -> 0 <= v.
Proof. intros H. apply (digitsValue_ge s 0 v); [lia | exact H]. Qed.

(** Whatever follows a minus sign, [Atoi] returns nothing above 0. *)
Lemma Atoi_minus (s : string) : fst (Atoi (String "-" s)) <= 0.
Proof.
  unfold Atoi.
  destruct ((0 <? Z.of_nat (String.length (String "-" s)))
            && (Z.of_nat (String.length (String "-" s)) <? 19)).
  - change (byteZ "-") with 45. change ((45 =? 45) || (45 =? 43)) with true.
    cbv iota. cbn [andb].
    destruct (Z.of_nat (String.length s) <? 1); [simpl; lia|].
    rewrite Atoi_fast_loop_digits.
    destruct (spec.digitsValue s 0) as [n|] eqn:E; simpl; [|lia].
    apply digitsValue_nonneg in E. lia.
  - unfold ParseInt. change (byteZ "-") with 45.
    change (45 =? 43) with false. change (45 =? 45) with true. cbv iota.
    pose proof (ParseUint_sound s) as Hs.
    destruct (ParseUint s) as [un [[|]|]]; simpl.
    + lia.
    + subst un. vm_compute. discriminate.
    + destruct Hs as [Hu Hr].
      destruct (2 ^ 63 <? un) eqn:Ec; simpl; [lia|].
      apply Z.ltb_ge in Ec. rewrite neg64_small by lia.
      destruct s as [|c r]; [discriminate|].
      apply digitsValue_nonneg in Hu. lia.
Qed.

Lemma byteZ_digit (d : Z) : 0 <= d < 10 -> byteZ (ascii_of_N (Z.to_N (48 + d))) = 48 + d.
Proof.
  intros Hd. unfold byteZ. rewrite N_ascii_embedding by lia. lia.
Qed.

(** The digits [formatBits] writes read back as the number, in front of
    what follows them. *)
Lemma formatBits_digits (fuel : nat) : forall u acc,
  fuel <> O ->
  0 <= u < 10 ^ Z.of_nat fuel ->
  formatBits fuel u acc <> EmptyString /\
  exists k, 0 < k /\
    forall a, spec.digitsValue (formatBits fuel u acc) a = spec.digitsValue acc (a * 10 ^ k + u).
Proof.
  induction fuel as [|fuel IH]; intros u acc Hf Hu.
  - congruence.
  - cbn [formatBits].
    assert (Hm : 0 <= u mod 10 < 10) by (apply Z.mod_pos_bound; lia).
    assert (Hstep : forall a,
      spec.digitsValue (String (ascii_of_N (Z.to_N (48 + u mod 10))) acc) a
      = spec.digitsValue acc (a * 10 + u mod 10)).
    { intros a. cbn [spec.digitsValue]. rewrite byteZ_digit by exact Hm.
      replace ((48 <=? 48 + u mod 10) && (48 + u mod 10 <=? 57)) with true
        by (symmetry; apply andb_true_iff; rewrite !Z.leb_le; lia).
      f_equal. lia. }
    destruct (Z.ltb_spec u 10) as [Hlt|Hge].
    + split; [discriminate|]. exists 1. split; [lia|]. intros a.
      rewrite Hstep, Z.mod_small by lia. f_equal.
    + assert (Hq : 0 <= u / 10 < 10 ^ Z.of_nat fuel).
      { split; [apply Z.div_pos; lia|].
        apply Z.div_lt_upper_bound; [lia|].
        rewrite Nat2Z.inj_succ, Z.pow_succ_r in Hu by lia. lia. }
      assert (Hf' : fuel <> O).
      { intros ->. change (10 ^ Z.of_nat 1) with 10 in Hu. lia. }
      destruct (IH (u / 10) (String (ascii_of_N (Z.to_N (48 + u mod 10))) acc) Hf' Hq)
        as [Hne (k & Hk & Hd)].
      split; [exact Hne|]. exists (k + 1). split; [lia|]. intros a.
      rewrite Hd, Hstep. f_equal.
      rewrite Z.pow_add_r by lia. change (10 ^ 1) with 10.
      assert (Hdm : u = 10 * (u / 10) + u mod 10) by (apply Z.div_mod; lia).
      lia.
Qed.

Lemma parseDecimal_digits (t : string) (v : Z) :
  t <> EmptyString -> spec.digitsValue t 0 = Some v -> spec.parseDecimal t = Some v.
Proof.
  destruct t as [|c r]; [congruence|]. intros _ H.
  unfold spec.parseDecimal.
  cbn [spec.digitsValue] in H.
  destruct ((48 <=? byteZ c) && (byteZ c <=? 57)) eqn:E; [|discriminate].
  apply andb_true_iff in E as [E1 E2]. apply Z.leb_le in E1, E2.
  replace (byteZ c =? 43) with false by (symmetry; apply Z.eqb_neq; lia).
  replace (byteZ c =? 45) with false by (symmetry; apply Z.eqb_neq; lia).
  cbn [spec.digitsValue].
  replace ((48 <=? byteZ c) && (byteZ c <=? 57)) with true
    by (symmetry; apply andb_true_iff; rewrite !Z.leb_le; lia).
  exact H.
Qed.

(** What [Itoa] writes for an [int] reads as that integer. *)
Lemma Itoa_reads (v : Z) : MinInt <= v <= MaxInt -> spec.parseDecimal (Itoa v) = Some v.
Proof.
  unfold MinInt, MaxInt. change (2 ^ 63) with 9223372036854775808. intros Hv.
  unfold Itoa. destruct (Z.ltb_spec v 0) as [Hneg|Hpos].
  - destruct (formatBits_digits 20 (- v) "") as [Hne (k & Hk & Hd)]; [discriminate| |].
    { change (10 ^ Z.of_nat 20) with 100000000000000000000. lia. }
    unfold spec.parseDecimal. change (byteZ "-") with 45.
    change (45 =? 43) with false. change (45 =? 45) with true. cbv iota.
    destruct (formatBits 20 (- v) "") as [|c r] eqn:E; [congruence|].
    rewrite Hd. cbn [spec.digitsValue]. f_equal. lia.
  - destruct (formatBits_digits 20 v "") as [Hne (k & Hk & Hd)]; [discriminate| |].
    { change (10 ^ Z.of_nat 20) with 100000000000000000000. lia. }
    apply parseDecimal_digits; [exact Hne|].
    rewrite Hd. cbn [spec.digitsValue]. f_equal.
Qed.

End Signs.

(** [CleanInt] returns 0 on every string that starts with a minus sign,
    whatever follows it: digits within the range of [int], digits beyond
    it (where [Atoi] reports a range error that [CleanInt] drops), or bytes
    that are no digits. *)
Theorem CleanInt_minus (s : string) : service.CleanInt (String "-" s) = 0.
Proof.
  unfold service.CleanInt. pose proof (Atoi_minus s) as H.
  destruct (strconv.Atoi (String "-" s)) as [val e]. simpl in H.
  replace (val <=? 0) with true by (symmetry; apply Z.leb_le; exact H). reflexivity.
Qed.

(** For every [int] [v], [Atoi] reads what [Itoa] writes for [v] as [v],
    without error; hence [CleanInt] of it is 0 when [v <= 0] and [v mod
    10000] otherwise, and adding 10000 to a positive [v] does not change
    the result. *)
Theorem CleanInt_Itoa_int (v : Z) :
  strconv.MinInt <= v <= strconv.MaxInt ->
  strconv.Atoi (strconv.Itoa v) = (v, None) /\
  service.CleanInt (strconv.Itoa v) = (if v <=? 0 then 0 else v mod 10000) /\
  (0 < v -> v + 10000 <= strconv.MaxInt ->
   service.CleanInt (strconv.Itoa (v + 10000)) = service.CleanInt (strconv.Itoa v)).
Proof.
  intros Hv.
  assert (HA : forall w, strconv.MinInt <= w <= strconv.MaxInt ->
                         strconv.Atoi (strconv.Itoa w) = (w, None)).
  { intros w Hw. pose proof (Itoa_reads w Hw) as Hp.
    pose proof (Atoi_in_range _ _ Hp Hw) as Hn.
    assert (Hr : snd (strconv.Atoi (strconv.Itoa w)) <> Some strconv.ErrRange)
      by (rewrite Hn; discriminate).
    apply Atoi_no_range in Hr. rewrite Hp in Hr. exact Hr. }
  assert (HC : forall w, strconv.MinInt <= w <= strconv.MaxInt ->
                 service.CleanInt (strconv.Itoa w) = (if w <=? 0 then 0 else w mod 10000)).
  { intros w Hw. unfold service.CleanInt. rewrite (HA w Hw).
    destruct (Z.leb_spec w 0); [reflexivity|]. apply Z.rem_mod_nonneg; lia. }
  split; [apply HA; exact Hv|]. split; [apply HC; exact Hv|].
  intros Hp Hm. rewrite !HC by (unfold strconv.MinInt in *; lia).
  replace (v <=? 0) with false by (symmetry; apply Z.leb_gt; lia).
  replace (v + 10000 <=? 0) with false by (symmetry; apply Z.leb_gt; lia).
  rewrite <- (Z.mul_1_l 10000) at 1. apply Z.mod_add. lia.
Qed.

Lemma CleanInt_Itoa_int_witness :
  strconv.Atoi (strconv.Itoa (-42)) = (-42, None) /\
  service.CleanInt (strconv.Itoa 123456789) = 6789.
Proof.
  split.
  - apply (CleanInt_Itoa_int (-42)). vm_compute. split; discriminate.
  - destruct (CleanInt_Itoa_int 123456789) as (_ & Hc & _);
      [vm_compute; split; discriminate|]. exact Hc.
Defined.

(** ** GetCropPoint: every anchor has a name *)

(** Every anchor is what [GetCropPoint] returns for some string, and an
    anchor other than the centre is returned for one string only: two
    strings that give the same anchor, not the centre, are the same
    string. *)
Theorem GetCropPoint_anchors :
  (forall p, exists s, service.GetCropPoint s = p) /\
  (forall s t, service.GetCropPoint s <> processor.CropCenter ->
               service.GetCropPoint s = service.GetCropPoint t -> s = t).
Proof.
  split.
  - intros []; [exists "" | exists "top" | exists "bottom" | exists "left" | exists "right"
                | exists "top,left" | exists "top,right" | exists "bottom,left"
                | exists "bottom,right"]; reflexivity.
  - intros s t. unfold service.GetCropPoint.
    repeat match goal with
    | |- context [String.eqb s ?u] => destruct (String.eqb_spec s u) as [->|_]
    end; try congruence; intros _;
    repeat match goal with
    | |- context [String.eqb t ?u] => destruct (String.eqb_spec t u) as [->|_]
    end; try reflexivity; discriminate.
Qed.

(** ** The dispatcher: the calls it makes and what it returns *)

Section Calls.
Import processor service.

Variable m : manipulator.
Variable ps : ProcessSpec.

Local Ltac run_process :=
  unfold Process, bind, ret, lift, invoke, durationMetric, time.Now, time.Since,
    metrics_Update, bind, ret; simpl.

Local Ltac split_calls :=
  repeat (simpl; match goal with
  | |- context [Crop ?p ?a ?b ?c ?d ?s] => destruct (Crop p a b c d s) as [[[? [?|]]|?] ?]
  | |- context [Resize ?p ?a ?b ?c ?s] => destruct (Resize p a b c s) as [[[? [?|]]|?] ?]
  | |- context [GrayScale ?p ?a ?s] => destruct (GrayScale p a s) as [[[? [?|]]|?] ?]
  | |- context [String.eqb ?a ?b] => destruct (String.eqb a b) eqn:?
  | |- context [Z.eqb ?a ?b] => destruct (Z.eqb a b) eqn:?
  end); simpl.

(** Whatever the request and the processor, [Process] makes at most two
    calls: first at most one of [Crop] and [Resize], on the bytes of the
    request and with the cleaned width and height, both within [0, 9999];
    then at most one [GrayScale].  It never calls [Watermark]. *)
Theorem Process_calls (s : Sys) :
  let w := CleanInt (index (Params ps) width) in
  let h := CleanInt (index (Params ps) height) in
  exists first second,
    snd (snd (Process m ps (s, []))) = first ++ second /\
    (first = [] \/
     first = [CallCrop (ImageData ps) w h (GetCropPoint (index (Params ps) crop))] \/
     first = [CallResize (ImageData ps) w h]) /\
    (second = [] \/ exists d, second = [CallGrayScale d]) /\
    0 <= w <= 9999 /\ 0 <= h <= 9999.
Proof.
  intros w h.
  assert (Hw : 0 <= w <= 9999) by apply CleanInt_bounds.
  assert (Hh : 0 <= h <= 9999) by apply CleanInt_bounds.
  subst w h. run_process.
  split_calls;
    first [ exists [], []; split; [reflexivity|]; solve [intuition eauto]
          | eexists [_], []; split; [reflexivity|]; solve [intuition eauto]
          | eexists [], [_]; split; [reflexivity|]; solve [intuition eauto]
          | eexists [_], [_]; split; [reflexivity|]; solve [intuition eauto] ].
Qed.

(** With [fit] equal to "crop" the first call is [Crop], also when no
    width and no height are given (it is then asked for 0 by 0); with
    [fit] empty and a cleaned width or height other than 0 the first call
    is [Resize]. *)
Theorem Process_first_call (s : Sys) :
  let w := CleanInt (index (Params ps) width) in
  let h := CleanInt (index (Params ps) height) in
  (index (Params ps) fit = crop ->
   head (snd (snd (Process m ps (s, []))))
     = Some (CallCrop (ImageData ps) w h (GetCropPoint (index (Params ps) crop)))) /\
  (index (Params ps) fit = "" -> w <> 0 \/ h <> 0 ->
   head (snd (snd (Process m ps (s, [])))) = Some (CallResize (ImageData ps) w h)).
Proof.
  intros w h. subst w h. split.
  - intros Hfit. run_process. rewrite Hfit. simpl. split_calls; reflexivity.
  - intros Hfit Hs. run_process. rewrite Hfit. simpl.
    assert (Hn : negb (CleanInt (index (Params ps) width) =? 0)
                 || negb (CleanInt (index (Params ps) height) =? 0) = true).
    { apply orb_true_iff. destruct Hs as [H|H]; [left|right];
        apply negb_true_iff, Z.eqb_neq; exact H. }
    rewrite Hn. split_calls; reflexivity.
Qed.

(** A [fit] that is neither "crop" nor empty switches both [Crop] and
    [Resize] off, whatever the width and the height; without the mono
    parameter the bytes then come back as they were, with no error, no
    call and nothing recorded. *)
Theorem Process_other_fit (s : Sys) :
  index (Params ps) fit <> crop ->
  index (Params ps) fit <> "" ->
  forallb (fun c => negb (isCrop c) && negb (isResize c))
          (snd (snd (Process m ps (s, [])))) = true /\
  (index (Params ps) mono <> blackHexCode ->
   Process m ps (s, []) = (Done (ImageData ps, None), (s, []))).
Proof.
  intros Hc He. run_process.
  destruct (String.eqb_spec (index (Params ps) fit) crop) as [E|_]; [contradiction|].
  assert (Hl : (Z.of_nat (String.length (index (Params ps) fit)) =? 0) = false).
  { apply Z.eqb_neq. destruct (index (Params ps) fit); [congruence | simpl; lia]. }
  rewrite Hl. simpl. split.
  - split_calls; reflexivity.
  - intros Hm. destruct (String.eqb_spec (index (Params ps) mono) blackHexCode) as [E|_];
      [contradiction | reflexivity].
Qed.

(** A crop that succeeds, followed by a grayscale: the dispatcher records
    the crop under the scope of the request, with the time the call took;
    [GrayScale] is given the bytes the crop returned; what [Process]
    returns is what [GrayScale] returns; and the grayscale metric is
    recorded only when that call returns no error, with the time of that
    call alone. *)
Theorem Process_crop_then_mono (s s1 : Sys) (d : bytes) :
  index (Params ps) fit = crop ->
  index (Params ps) mono = blackHexCode ->
  Crop (processor_ m) (ImageData ps) (CleanInt (index (Params ps) width))
       (CleanInt (index (Params ps) height)) (GetCropPoint (index (Params ps) crop)) s
    = (Done (d, None), s1) ->
  let s1' := timed cropDurationKey (Scope ps) (now s) s1 in
  fst (Process m ps (s, [])) = fst (GrayScale (processor_ m) d s1') /\
  snd (snd (Process m ps (s, []))) =
    [CallCrop (ImageData ps) (CleanInt (index (Params ps) width))
              (CleanInt (index (Params ps) height))
              (GetCropPoint (index (Params ps) crop));
     CallGrayScale d] /\
  (forall d' e' s2, GrayScale (processor_ m) d s1' = (Done (d', e'), s2) ->
     fst (snd (Process m ps (s, []))) =
       match e' with
       | None => timed grayScaleDurationKey (Scope ps) (now s1) s2
       | Some _ => s2
       end).
Proof.
  intros Hfit Hmono Hc s1'. run_process. rewrite Hfit, Hmono. simpl.
  rewrite Hc. simpl. fold (timed cropDurationKey (Scope ps) (now s) s1). fold s1'.
  destruct (GrayScale (processor_ m) d s1') as [[[d' [e'|]]|msg] s2]; simpl;
    repeat split; try reflexivity; intros ? ? ? [=]; subst; reflexivity.
Qed.

(** A resize alone: [Process] returns the bytes and the error of
    [Resize] as they are; the resize metric, with the scope of the request
    and the time the call took, is recorded when there is no error and
    only then. *)
Theorem Process_resize_alone (s s1 : Sys) (d : bytes) (e : error) :
  index (Params ps) fit = "" ->
  CleanInt (index (Params ps) width) <> 0 \/ CleanInt (index (Params ps) height) <> 0 ->
  index (Params ps) mono <> blackHexCode ->
  Resize (processor_ m) (ImageData ps) (CleanInt (index (Params ps) width))
         (CleanInt (index (Params ps) height)) s = (Done (d, e), s1) ->
  Process m ps (s, []) =
    (Done (d, e),
     (match e with
      | None => timed resizeDurationKey (Scope ps) (now s) s1
      | Some _ => s1
      end,
      [CallResize (ImageData ps) (CleanInt (index (Params ps) width))
                  (CleanInt (index (Params ps) height))])).
Proof.
  intros Hfit Hs Hmono Hr. run_process. rewrite Hfit. simpl.
  assert (Hn : negb (CleanInt (index (Params ps) width) =? 0)
               || negb (CleanInt (index (Params ps) height) =? 0) = true).
  { apply orb_true_iff. destruct Hs as [H|H]; [left|right];
      apply negb_true_iff, Z.eqb_neq; exact H. }
  rewrite Hn. simpl. rewrite Hr. simpl.
  destruct (String.eqb_spec (index (Params ps) mono) blackHexCode) as [E|_];
    [contradiction|].
  destruct e; reflexivity.
Qed.

(** A grayscale alone: [Process] returns the bytes and the error of
    [GrayScale] as they are, and records the grayscale metric, with the
    scope of the request, when there is no error and only then. *)
Theorem Process_mono_alone (s s1 : Sys) (d : bytes) (e : error) :
  index (Params ps) fit = "" ->
  CleanInt (index (Params ps) width) = 0 ->
  CleanInt (index (Params ps) height) = 0 ->
  index (Params ps) mono = blackHexCode ->
  GrayScale (processor_ m) (ImageData ps) s = (Done (d, e), s1) ->
  Process m ps (s, []) =
    (Done (d, e),
     (match e with
      | None => timed grayScaleDurationKey (Scope ps) (now s) s1
      | Some _ => s1
      end,
      [CallGrayScale (ImageData ps)])).
Proof.
  intros Hfit Hw Hh Hmono Hg. run_process. rewrite Hfit, Hw, Hh, Hmono. simpl.
  rewrite Hg. simpl. destruct e; reflexivity.
Qed.

End Calls.

Lemma Process_other_fit_witness :
  service.Process sample.manip sample.fill (sample.start, [])
    = (Done ([Byte.x01], None), (sample.start, [])).
Proof.
  apply (Process_other_fit sample.manip sample.fill sample.start); discriminate.
Defined.

Lemma Process_crop_then_mono_witness :
  snd (snd (service.Process sample.manip sample.cropGray (sample.start, [])))
    = [processor.CallCrop [Byte.x01] 1 1 processor.CropCenter;
       processor.CallGrayScale [Byte.x89; Byte.x50]].
Proof.
  edestruct (Process_crop_then_mono sample.manip sample.cropGray sample.start) as (_ & H & _);
    [reflexivity | reflexivity | vm_compute; reflexivity | exact H].
Defined.

Lemma Process_resize_alone_witness :
  exists s1,
    service.Process sample.manip sample.narrow (sample.start, [])
      = (Done ([Byte.xff; Byte.xd8], None),
         (timed service.resizeDurationKey "thumb" 1000 s1,
          [processor.CallResize [Byte.x01] 1 0])).
Proof.
  eexists.
  apply (Process_resize_alone sample.manip sample.narrow sample.start _
           [Byte.xff; Byte.xd8] None);
    [reflexivity | left; discriminate | discriminate | vm_compute; reflexivity].
Defined.

Lemma Process_mono_alone_witness :
  service.Process {| service.processor_ := sample.flaky |} sample.gray (sample.start, [])
    = (Done ([Byte.x2a], None),
       (timed service.grayScaleDurationKey "thumb" 1000 sample.start,
        [processor.CallGrayScale [Byte.x03]])).
Proof.
  apply (Process_mono_alone {| service.processor_ := sample.flaky |} sample.gray
           sample.start sample.start [Byte.x2a] None); reflexivity.
Defined.

(** ** grayScale: the pixels it writes *)

Section Pixels.
Import image native.

Lemma u8_range (v : Byte.byte) : 0 <= u8 v < 256.
Proof. destruct v; vm_compute; split; congruence. Qed.

Lemma u8_widen (v : Byte.byte) : Z.lor (u8 v) (Z.shiftl (u8 v) 8) = 257 * u8 v.
Proof. destruct v; reflexivity. Qed.

Lemma u8_uint8 (z : Z) : 0 <= z < 256 -> u8 (uint8 z) = z.
Proof.
  intros H. unfold uint8, u8. rewrite Z.mod_small by lia.
  destruct (Byte.of_N (Z.to_N z)) as [b|] eqn:E.
  - apply Byte.to_of_N in E. rewrite E. lia.
  - apply Byte.of_N_None_iff in E. lia.
Qed.

(** The gray level of a pixel lies between bounds that hold for its
    three colour channels. *)
Lemma gray_between (c : color.RGBA) (lo hi : Z) :
  lo <= u8 (color.R c) <= hi -> lo <= u8 (color.G c) <= hi -> lo <= u8 (color.B c) <= hi ->
  lo <= u8 (color.R (grayPix c)) <= hi.
Proof.
  destruct c as [r g b a]. unfold grayPix. simpl.
  rewrite !u8_widen.
  pose proof (u8_range r) as Hr. pose proof (u8_range g) as Hg. pose proof (u8_range b) as Hb.
  intros H1 H2 H3.
  change (Z.shiftl 1 15) with 32768. change (2 ^ 32) with 4294967296.
  set (t := 19595 * (257 * u8 r) + 38470 * (257 * u8 g) + 7471 * (257 * u8 b) + 32768).
  assert (Ht : 16842752 * lo + 32768 <= t <= 16842752 * hi + 32768) by (unfold t; lia).
  assert (Ht' : 0 <= t < 4294967296) by (unfold t; lia).
  rewrite Z.mod_small by lia. rewrite Z.shiftr_div_pow2 by lia.
  change (2 ^ 24) with 16777216.
  assert (Hq : lo <= t / 16777216 <= hi).
  { split.
    - apply Z.div_le_lower_bound; lia.
    - apply Z.lt_succ_r, Z.div_lt_upper_bound; lia. }
  rewrite u8_uint8; [exact Hq|].
  split; [apply Z.div_pos; lia | apply Z.div_lt_upper_bound; lia].
Qed.

(** On an image whose bounds start at the origin, as the decoders return
    them, [grayScale] returns an image of the same bounds in which every
    pixel has its three colour channels equal, keeps the alpha of the
    source pixel, and has a gray level between the least and the greatest
    colour channel of the source pixel. *)
Theorem grayScale_pixels (procs : Z) (img g : Image) (x y : Z) :
  grayScale procs img = Done g ->
  Min (Bounds img) = ZP ->
  In (x, y) (Bounds img) = true ->
  let c := color.RGBAModel_Convert (At img x y) in
  let p := color.RGBAModel_Convert (At g x y) in
  Bounds g = Bounds img /\
  color.R p = color.G p /\ color.G p = color.B p /\ color.A p = color.A c /\
  Z.min (u8 (color.R c)) (Z.min (u8 (color.G c)) (u8 (color.B c))) <= u8 (color.R p)
    <= Z.max (u8 (color.R c)) (Z.max (u8 (color.G c)) (u8 (color.B c))).
Proof.
  intros Hg Hmin Hin c p.
  pose proof (grayScale_spec procs img) as H. rewrite Hg in H.
  destruct H as (r & -> & _ & H).
  assert (He : Empty (Bounds img) = false).
  { unfold In, Empty in *. simpl in Hin.
    rewrite !andb_true_iff, !Z.leb_le, !Z.ltb_lt in Hin.
    apply orb_false_iff. rewrite !Z.leb_gt. lia. }
  rewrite He in H. destruct H as [Hr Hp].
  assert (Hw : window 0 (Dy (Bounds img)) 0 (Dx (Bounds img)) x y = true).
  { rewrite In_window in Hin. unfold Dx, Dy. rewrite Hmin. simpl.
    rewrite Hmin in Hin. simpl in Hin. rewrite !Z.sub_0_r. exact Hin. }
  assert (E : p = grayPix c).
  { unfold p. simpl. apply RGBAAt_lookup; [rewrite Hr; exact Hin|].
    rewrite Hp, Hin, Hw. reflexivity. }
  rewrite E. split; [exact Hr|]. do 3 (split; [reflexivity|]).
  apply (gray_between c); lia.
Qed.

(** The loops of [grayScale] run over [0 <= x < Dx], [0 <= y < Dy] and
    not over the bounds: on an image whose bounds do not start at the
    origin, a pixel of the bounds with [x] at or beyond the width, or [y]
    at or beyond the height, is never written and stays transparent
    black. *)
Theorem grayScale_off_origin (procs : Z) (img g : Image) (x y : Z) :
  grayScale procs img = Done g ->
  In (x, y) (Bounds img) = true ->
  Dx (Bounds img) <= x \/ Dy (Bounds img) <= y ->
  Bounds g = Bounds img /\ At g x y = color.ofRGBA zeroRGBA.
Proof.
  intros Hg Hin Hout.
  pose proof (grayScale_spec procs img) as H. rewrite Hg in H.
  destruct H as (r & -> & _ & H).
  assert (He : Empty (Bounds img) = false).
  { unfold In, Empty in *. simpl in Hin.
    rewrite !andb_true_iff, !Z.leb_le, !Z.ltb_lt in Hin.
    apply orb_false_iff. rewrite !Z.leb_gt. lia. }
  rewrite He in H. destruct H as [Hr Hp]. split; [exact Hr|].
  simpl. f_equal. unfold RGBAAt. rewrite Hr, Hin, Hp, Hin. simpl.
  replace (window 0 (Dy (Bounds img)) 0 (Dx (Bounds img)) x y) with false; [reflexivity|].
  symmetry. apply not_true_iff_false. rewrite window_true. lia.
Qed.

(** What [grayScale] returns does not depend on the number of processors
    [parallel.Line] splits the rows over: the result, or the panic, is the
    same for any two values of it. *)
Theorem grayScale_procs (procs procs' : Z) (img : Image) :
  grayScale procs img = grayScale procs' img.
Proof.
  unfold grayScale.
  destruct (clone.AsRGBA img) as [src|msg]; simpl; [|reflexivity].
  destruct (Empty (Rect_ src)); [reflexivity|].
  destruct (NewRGBA (Rect_ src)) as [dst|msg]; simpl; [|reflexivity].
  do 2 f_equal.
  set (f := fun x y => color.ofRGBA (grayPix (RGBAAt src x y))).
  set (fn := fun start end_ dst0 => for_range start end_ _ dst0).
  assert (Hfn : forall a b p, painted f (window a b 0 (Dx (Rect_ src))) p (fn a b p)).
  { intros a b p. apply (painted_rows f a b 0 (Dx (Rect_ src)) p). }
  destruct (Line_painted f fn 0 (Dx (Rect_ src)) Hfn procs (Dy (Rect_ src)) dst) as [R1 P1].
  destruct (Line_painted f fn 0 (Dx (Rect_ src)) Hfn procs' (Dy (Rect_ src)) dst) as [R2 P2].
  apply RGBA_eq; [congruence|]. intros x y. rewrite P1, P2. reflexivity.
Qed.

End Pixels.

Lemma grayScale_pixels_witness :
  image.Bounds sample.grayPhoto = image.Bounds sample.photo /\
  color.R (color.RGBAModel_Convert (image.At sample.grayPhoto 3 2))
    = color.G (color.RGBAModel_Convert (image.At sample.grayPhoto 3 2)).
Proof.
  destruct (grayScale_pixels 4 sample.photo sample.grayPhoto 3 2) as (H1 & H2 & _);
    [vm_compute; reflexivity | reflexivity | reflexivity |].
  split; [exact H1 | exact H2].
Defined.

Lemma grayScale_off_origin_witness :
  exists g, native.grayScale 4 sample.shifted = Done g /\
    image.At g 6 6 = color.ofRGBA image.zeroRGBA.
Proof.
  eexists. split; [vm_compute; reflexivity|].
  apply (grayScale_off_origin 4 sample.shifted);
    [vm_compute; reflexivity | reflexivity | right; vm_compute; discriminate].
Defined.

(** ** The runs of the native processor, step by step *)

Section Runs.
Import image native.
Variable env : Env.

(** On bytes that do not decode, [Crop], [Resize], [GrayScale] and
    [Watermark] (for its base) return no bytes and the decoder's error
    after the one decode step: no transform, no encoding, no metric.  When
    it is the overlay of [Watermark] that does not decode, the base was
    decoded and its decode metric recorded, and nothing else. *)
Theorem decode_error_returned (input : bytes) (e : string) (s : Sys) :
  image_Decode env input = inr e ->
  let failed := (Done ([], Some e), took env [WorkDecode input] [] s) in
  (forall w h p, Crop env input w h p s = failed) /\
  (forall w h, Resize env input w h s = failed) /\
  GrayScale env input s = failed /\
  (forall overlay opacity, Watermark env input overlay opacity s = failed) /\
  (forall base opacity, decodes env base ->
     Watermark env base input opacity s =
       (Done ([], Some e),
        took env [WorkDecode base; WorkDecode input]
             [duration decodeDurationKey (cost env (WorkDecode base))] s)).
Proof.
  intros He failed. unfold failed.
  repeat split; intros.
  - unfold Crop. erewrite bind_Done by apply decode_eq. rewrite He. reflexivity.
  - unfold Resize. erewrite bind_Done by apply decode_eq. rewrite He. reflexivity.
  - unfold GrayScale. erewrite bind_Done by apply decode_eq. rewrite He. reflexivity.
  - unfold Watermark. erewrite bind_Done by apply decode_eq. rewrite He. reflexivity.
  - destruct H as (img & f & Hb). unfold Watermark.
    erewrite bind_Done by apply decode_eq. rewrite Hb.
    erewrite bind_Done by apply decode_eq. rewrite He.
    unfold ret. rewrite took_took. reflexivity.
Qed.

(** [Resize] on bytes that decode.  When the sizes asked for are the
    sizes of the image, no resize is made and the decoded image is encoded
    again as it is; otherwise, for positive sizes that fit a buffer and an
    image that is not empty, what is encoded is the resampled image, of
    bounds [(0,0)-(w,h)]. *)
Theorem Resize_run (input : bytes) (width height : Z) (s : Sys)
        (img : Image) (f : string) (w h : Z) :
  image_Decode env input = inl (img, f) ->
  getResizeWidthAndHeight env width height (Dx (Bounds img)) (Dy (Bounds img)) = (w, h) ->
  (w = Dx (Bounds img) -> h = Dy (Bounds img) ->
   Resize env input width height s =
     (Done (encoded env img f),
      took env (WorkDecode input :: encodeSteps img f)
           [duration decodeDurationKey (cost env (WorkDecode input));
            duration encodeDurationKey (costs env (encodeSteps img f))] s)) /\
  (w <> Dx (Bounds img) \/ h <> Dy (Bounds img) ->
   0 < w -> 0 < h -> Empty (Bounds img) = false -> 4 * w * h < 2 ^ 63 ->
   exists r, Rect_ r = mkRectangle (0, 0) (w, h) /\
     Pix r = resample env img w h /\
     Resize env input width height s =
       (Done (encoded env (ofRGBA r) f),
        took env (WorkDecode input :: WorkResize img w h :: encodeSteps (ofRGBA r) f)
             [duration decodeDurationKey (cost env (WorkDecode input));
              duration encodeDurationKey (costs env (encodeSteps (ofRGBA r) f))] s)).
Proof.
  intros Hd Hwh. split.
  - intros -> ->. unfold Resize.
    erewrite bind_Done by apply decode_eq. rewrite Hd. cbv zeta. rewrite Hwh.
    rewrite !Z.eqb_refl. simpl.
    erewrite bind_Done by reflexivity.
    rewrite encode_eq, !took_took. reflexivity.
  - intros Hne Hw Hh He Hfit.
    assert (Hr : transform.Resize env img w h
                 = Done (mkImg (resample env img w h) (mkRectangle (0, 0) (w, h)))).
    { unfold transform.Resize. rewrite He.
      replace (w <=? 0) with false by (symmetry; apply Z.leb_gt; lia).
      replace (h <=? 0) with false by (symmetry; apply Z.leb_gt; lia).
      simpl. unfold Rect.
      replace (w <? 0) with false by (symmetry; apply Z.ltb_ge; lia).
      replace (h <? 0) with false by (symmetry; apply Z.ltb_ge; lia).
      destruct (NewRGBA_cases (mkRectangle (0, 0) (w, h))) as [[_ ->]|[H _]]; [reflexivity|].
      exfalso. revert H. unfold mul3NonNeg, Dx, Dy. simpl. rewrite !Z.sub_0_r.
      change (2 ^ 64) with 18446744073709551616.
      change (2 ^ 63) with 9223372036854775808 in *.
      repeat match goal with
      | |- context [if ?b then _ else _] => destruct b eqn:?
      end; rewrite ?orb_true_iff, ?orb_false_iff, ?Z.ltb_lt, ?Z.ltb_ge, ?Z.leb_le, ?Z.leb_gt in *;
        nia. }
    eexists. split; [|split]; [| |unfold Resize].
    3:{ erewrite bind_Done by apply decode_eq. rewrite Hd. cbv zeta. rewrite Hwh.
        replace (negb (w =? Dx (Bounds img)) || negb (h =? Dy (Bounds img))) with true.
        2:{ symmetry. apply orb_true_iff.
            destruct Hne as [H|H]; [left|right]; apply negb_true_iff, Z.eqb_neq; exact H. }
        erewrite (bind_Done (bind _ _)).
        2:{ erewrite bind_Done by apply work_eq.
            erewrite bind_Done by (rewrite liftO_eq, Hr; reflexivity). reflexivity. }
        rewrite encode_eq, !took_took. reflexivity. }
    all: reflexivity.
Qed.

(** [Crop] on bytes that decode to an image that is not empty, when the
    rectangle of the sizes asked for, placed at the starting point, lies
    within the image as it was resized: what is encoded is an image of
    exactly the width and the height asked for, whose pixels are those of
    the resized image at the same coordinates. *)
Theorem Crop_exact (input : bytes) (width height : Z) (point : processor.CropPoint) (s : Sys)
        (img : Image) (f : string) (w h x0 y0 : Z) :
  image_Decode env input = inl (img, f) ->
  getResizeWidthAndHeightForCrop env width height (Dx (Bounds img)) (Dy (Bounds img)) = (w, h) ->
  getStartingPointForCrop env w h width height point = (x0, y0) ->
  Empty (Bounds img) = false ->
  0 < width -> 0 < height -> 0 <= x0 -> 0 <= y0 -> x0 + width <= w -> y0 + height <= h ->
  4 * w * h < 2 ^ 63 ->
  exists cropped,
    fst (Crop env input width height point s) = Done (encoded env (ofRGBA cropped) f) /\
    Rect_ cropped = mkRectangle (x0, y0) (x0 + width, y0 + height) /\
    forall x y, In (x, y) (Rect_ cropped) = true ->
      RGBAAt cropped x y = default zeroRGBA (resample env img w h !! (x, y)).
Proof.
  intros Hd Hwh Hxy He Hw Hh Hx Hy Hxw Hyh Hfit.
  assert (Hm : 0 <= mul3NonNeg 4 w h).
  { unfold mul3NonNeg.
    change (2 ^ 64) with 18446744073709551616.
    change (2 ^ 63) with 9223372036854775808 in *.
    repeat match goal with
    | |- context [if ?b then _ else _] => destruct b eqn:?
    end; rewrite ?orb_true_iff, ?orb_false_iff, ?Z.ltb_lt, ?Z.ltb_ge, ?Z.leb_le, ?Z.leb_gt in *;
      nia. }
  assert (Hr : transform.Resize env img w h
               = Done (mkImg (resample env img w h) (mkRectangle (0, 0) (w, h)))).
  { unfold transform.Resize. rewrite He.
    replace (w <=? 0) with false by (symmetry; apply Z.leb_gt; lia).
    replace (h <=? 0) with false by (symmetry; apply Z.leb_gt; lia).
    simpl. unfold Rect.
    replace (w <? 0) with false by (symmetry; apply Z.ltb_ge; lia).
    replace (h <? 0) with false by (symmetry; apply Z.ltb_ge; lia).
    destruct (NewRGBA_cases (mkRectangle (0, 0) (w, h))) as [[_ ->]|[H _]]; [reflexivity|].
    exfalso. revert H. unfold Dx, Dy. simpl. rewrite !Z.sub_0_r. lia. }
  set (r1 := mkImg (resample env img w h) (mkRectangle (0, 0) (w, h))) in *.
  pose proof (AsRGBA_spec (ofRGBA r1)) as Ha.
  destruct (clone.AsRGBA (ofRGBA r1)) as [r2|msg] eqn:Ea.
  2:{ exfalso. revert Ha. unfold Dx, Dy. simpl. rewrite !Z.sub_0_r. lia. }
  destruct Ha as (_ & Hr2 & Hp2). simpl Bounds in Hr2, Hp2.
  assert (HR : Rect x0 y0 (width + x0) (height + y0)
               = mkRectangle (x0, y0) (x0 + width, y0 + height)).
  { unfold Rect.
    replace (width + x0 <? x0) with false by (symmetry; apply Z.ltb_ge; lia).
    replace (height + y0 <? y0) with false by (symmetry; apply Z.ltb_ge; lia).
    rewrite (Z.add_comm width), (Z.add_comm height). reflexivity. }
  assert (HS : SubImage r2 (Rect x0 y0 (width + x0) (height + y0))
               = mkImg (Pix r2) (mkRectangle (x0, y0) (x0 + width, y0 + height))).
  { rewrite HR. unfold SubImage, Intersect. rewrite Hr2. simpl.
    replace (x0 <? 0) with false by (symmetry; apply Z.ltb_ge; lia).
    replace (y0 <? 0) with false by (symmetry; apply Z.ltb_ge; lia).
    replace (w <? x0 + width) with false by (symmetry; apply Z.ltb_ge; lia).
    replace (h <? y0 + height) with false by (symmetry; apply Z.ltb_ge; lia).
    assert (Hne : Empty (mkRectangle (x0, y0) (x0 + width, y0 + height)) = false).
    { unfold Empty. simpl. apply orb_false_iff. rewrite !Z.leb_gt. lia. }
    rewrite Hne, Hne. reflexivity. }
  exists (mkImg (Pix r2) (mkRectangle (x0, y0) (x0 + width, y0 + height))).
  split; [|split; [reflexivity|]].
  - unfold Crop.
    erewrite bind_Done by apply decode_eq. rewrite Hd. rewrite Hwh.
    erewrite bind_Done by apply work_eq.
    erewrite bind_Done by (rewrite liftO_eq, Hr; reflexivity).
    rewrite Hxy.
    erewrite bind_Done by apply work_eq.
    erewrite bind_Done by (rewrite liftO_eq; fold r1; rewrite Ea; reflexivity).
    rewrite encode_eq, HS. reflexivity.
  - intros x y Hin. simpl in Hin. unfold RGBAAt. simpl Rect_. simpl Pix. rewrite Hin.
    assert (Hin1 : In (x, y) (Rect_ r1) = true).
    { unfold In in *. simpl in *.
      rewrite !andb_true_iff, !Z.leb_le, !Z.ltb_lt in *. lia. }
    rewrite Hp2. change (mkRectangle (0, 0) (w, h)) with (Rect_ r1).
    rewrite Hin1. simpl. unfold RGBAAt. rewrite Hin1. reflexivity.
Qed.

(** The dispatcher over the bild processor, for a grayscale alone on
    bytes that decode: [Process] returns what the encoder returns for the
    gray image; the processor records its decode and its encode, each
    with the time of that step; and when the encoder reports no error the
    dispatcher adds the grayscale metric, under the scope of the request,
    whose duration is the time of all the steps of the call: the decode,
    the conversion and the encoding. *)
Theorem Process_mono_native (ps : service.ProcessSpec) (s : Sys) (img g : Image) (f : string) :
  service.index (service.Params ps) service.fit = "" ->
  service.CleanInt (service.index (service.Params ps) service.width) = 0 ->
  service.CleanInt (service.index (service.Params ps) service.height) = 0 ->
  service.index (service.Params ps) service.mono = service.blackHexCode ->
  image_Decode env (service.ImageData ps) = inl (img, f) ->
  grayScale (GOMAXPROCS env) img = Done g ->
  let ws := [WorkDecode (service.ImageData ps); WorkGrayScale img] ++ encodeSteps g f in
  service.Process {| service.processor_ := NewBildProcessor env |} ps (s, []) =
    (Done (encoded env g f),
     (took env ws
        ([duration decodeDurationKey (cost env (WorkDecode (service.ImageData ps)));
          duration encodeDurationKey (costs env (encodeSteps g f))]
         ++ match snd (encoded env g f) with
            | None => [scoped service.grayScaleDurationKey (service.Scope ps) (costs env ws)]
            | Some _ => []
            end) s,
      [processor.CallGrayScale (service.ImageData ps)])).
Proof.
  intros Hfit Hw Hh Hmono Hd Hg ws.
  unfold service.Process, bind, ret, service.lift, service.invoke, service.durationMetric,
    time.Now, time.Since, metrics_Update, bind, ret. simpl.
  rewrite Hfit, Hw, Hh, Hmono. simpl.
  rewrite (GrayScale_eq env _ s img g f Hd Hg). simpl. fold ws.
  destruct (encoded env g f) as [d [e|]]; simpl.
  - reflexivity.
  - do 2 f_equal. unfold took, scoped. simpl. apply (Sys_eq s); try reflexivity.
    rewrite <- app_assoc. simpl. do 4 f_equal. f_equal. lia.
Qed.



End Runs.

Section RunsPkg.
Import image native_pkg.
Variable env : Env.

(** [GrayScale] as it stands in [pkg/processor/native/processor.go], on
    any bytes: on bytes that do not decode it returns the decoder's error
    and no bytes, with nothing recorded; otherwise it returns what the
    encoder returns for bild's gray image and records three durations, the
    decode, the conversion and the encode, each the time of that step
    alone. *)
Theorem pkg_GrayScale_run (input : bytes) (s : Sys) :
  GrayScale env input s =
  match image_Decode env input with
  | inr e => (Done ([], Some e), took env [WorkDecode input] [] s)
  | inl (img, f) =>
      let g := effect_Grayscale env img in
      (Done (encoded env g f),
       took env ([WorkDecode input; WorkGrayScale img] ++ encodeSteps g f)
            [duration native.decodeDurationKey (cost env (WorkDecode input));
             duration grayScaleDurationKey (cost env (WorkGrayScale img));
             duration native.encodeDurationKey (costs env (encodeSteps g f))] s)
  end.
Proof.
  unfold GrayScale, decode, encode.
  erewrite bind_Done by apply decode_eq.
  destruct (image_Decode env input) as [[img f]|e]; [|reflexivity].
  erewrite bind_Done by apply Now_eq.
  erewrite bind_Done by apply work_eq.
  erewrite bind_Done by apply durationMetric_eq.
  rewrite encode_eq, !took_took. cbv zeta. do 2 f_equal. simpl.
  unfold took. simpl. do 2 f_equal. unfold duration. do 3 f_equal. unfold costs. simpl. lia.
Qed.

End RunsPkg.

Lemma decode_error_returned_witness :
  native.GrayScale sample.env [Byte.x07] sample.start
    = (Done ([], Some "unexpected EOF"),
       took sample.env [WorkDecode [Byte.x07]] [] sample.start).
Proof.
  destruct (decode_error_returned sample.env [Byte.x07] "unexpected EOF" sample.start)
    as (_ & _ & H & _); [reflexivity | exact H].
Defined.

Lemma Resize_run_witness :
  fst (native.Resize sample.env [Byte.x01] 0 0 sample.start)
    = Done (encoded sample.env sample.solid "png").
Proof.
  destruct (Resize_run sample.env [Byte.x01] 0 0 sample.start sample.solid "png" 2 2)
    as [H _]; [reflexivity | reflexivity |].
  rewrite H; reflexivity.
Defined.

Lemma Crop_exact_witness :
  exists cropped,
    fst (native.Crop sample.env [Byte.x01] 1 1 processor.CropCenter sample.start)
      = Done (encoded sample.env (image.ofRGBA cropped) "png") /\
    image.Rect_ cropped = image.mkRectangle (0, 0) (1, 1).
Proof.
  destruct (Crop_exact sample.env [Byte.x01] 1 1 processor.CropCenter sample.start
              sample.solid "png" 1 1 0 0) as (c & H1 & H2 & _);
    try reflexivity; try lia; try discriminate.
  exists c. split; [exact H1 | exact H2].
Defined.

Lemma Process_mono_native_witness :
  exists s' : Sys,
    snd (service.Process sample.manip sample.gray (sample.start, []))
      = (s', [processor.CallGrayScale [Byte.x03]]) /\
    map metrics.Duration_ (recorded s') = [3; 5; 21].
Proof.
  eexists. split.
  - unfold sample.manip.
    rewrite (Process_mono_native sample.env sample.gray
              sample.start sample.photo sample.grayPhoto "jpeg");
      [reflexivity | reflexivity | reflexivity | reflexivity | reflexivity | reflexivity
       | vm_compute; reflexivity].
  - vm_compute. reflexivity.
Defined.


